(** * Image-Hub: the generation orchestration engine

    A shallow embedding of the orchestration logic of the application
    ([App.tsx], [services/geminiService.ts], [types.ts]) and the
    properties of its mode/state machine, provider adapters, prompt
    history and audio decoding.

    Conventions of the embedding.
    - A JavaScript string is a [string]: a sequence of code units, here
      restricted to the units below 256 (one [ascii] each).  All string
      literals of the source are in that range.
    - [null] and [undefined] are [None].
    - A thrown [Error(msg)] is [inl msg] in the [result] type; a normal
      return of [v] is [inr v].
    - The React state of the [App] component is one record, [App]; each
      [setX] of the source is the record update [set_X]. *)

From Stdlib Require Import String Ascii List ZArith QArith Bool Lia.
From Stdlib Require Import Strings.Byte.
Import ListNotations.
Close Scope Q_scope.
Open Scope list_scope.
Open Scope string_scope.

(** ** JavaScript values *)

Module JS.

(** Truthiness of a string: every string but the empty one. *)
Definition truthy (s : string) : bool :=
  match s with
  | EmptyString => false
  | String _ _ => true
  end.

(** Truthiness of a [string | null] (or [string | undefined]). *)
Definition truthy_opt (o : option string) : bool :=
  match o with
  | None => false
  | Some s => truthy s
  end.

(** Truthiness of an object reference or [null]. *)
Definition present {A : Type} (o : option A) : bool :=
  match o with
  | None => false
  | Some _ => true
  end.

(** [a || b] on strings. *)
Definition or_else (a b : string) : string :=
  if truthy a then a else b.

(** [a || b] where [a] may be [undefined]. *)
Definition or_else_opt (a : option string) (b : string) : string :=
  match a with
  | Some s => or_else s b
  | None => b
  end.

(** A value interpolated in a template literal. *)
Definition interpolate (o : option string) : string :=
  match o with
  | Some s => s
  | None => "undefined"
  end.

(** White space of [String.prototype.trim] among the units below 256:
    TAB, LF, VT, FF, CR, SP and NBSP. *)
Definition is_white_space (c : ascii) : bool :=
  let n := nat_of_ascii c in
  (Nat.eqb n 9 || Nat.eqb n 10 || Nat.eqb n 11 || Nat.eqb n 12
   || Nat.eqb n 13 || Nat.eqb n 32 || Nat.eqb n 160)%bool.

Fixpoint trimStart (s : string) : string :=
  match s with
  | EmptyString => EmptyString
  | String c r => if is_white_space c then trimStart r else s
  end.

Fixpoint trimEnd (s : string) : string :=
  match s with
  | EmptyString => EmptyString
  | String c r =>
      match trimEnd r with
      | EmptyString => if is_white_space c then EmptyString else String c EmptyString
      | r' => String c r'
      end
  end.

Definition trim (s : string) : string := trimEnd (trimStart s).

(** [s.split(sep)] for a one-unit separator. *)
Fixpoint split (sep : ascii) (s : string) : list string :=
  match s with
  | EmptyString => [EmptyString]
  | String c r =>
      if Ascii.eqb c sep then EmptyString :: split sep r
      else match split sep r with
           | h :: t => String c h :: t
           | [] => [String c EmptyString]
           end
  end.

Fixpoint take (n : nat) (s : string) : string :=
  match n, s with
  | S n', String c r => String c (take n' r)
  | _, _ => EmptyString
  end.

Fixpoint drop (n : nat) (s : string) : string :=
  match n, s with
  | S n', String _ r => drop n' r
  | _, _ => s
  end.

(** [s.substring(a, b)] on non-negative integers: both indices are
    clamped to the length and swapped when out of order. *)
Definition substring (a b : nat) (s : string) : string :=
  let len := String.length s in
  let a' := Nat.min a len in
  let b' := Nat.min b len in
  let lo := Nat.min a' b' in
  let hi := Nat.max a' b' in
  take (hi - lo) (drop lo s).

(** [s.replace(/[...]/g, '')]: every unit of the class is deleted. *)
Fixpoint remove_class (cls : ascii -> bool) (s : string) : string :=
  match s with
  | EmptyString => EmptyString
  | String c r =>
      if cls c then remove_class cls r else String c (remove_class cls r)
  end.

Fixpoint contains_class (cls : ascii -> bool) (s : string) : bool :=
  match s with
  | EmptyString => false
  | String c r => (cls c || contains_class cls r)%bool
  end.

(** [xs.slice(0, n)]. *)
Definition slice0 {A : Type} (n : nat) (xs : list A) : list A := firstn n xs.

End JS.

(** ** Errors *)

(** The outcome of a call that may throw (or of a promise that may be
    rejected). *)
Definition result (A : Type) : Type := (string + A)%type.

Definition ret {A : Type} (a : A) : result A := inr a.
Definition throw {A : Type} (msg : string) : result A := inl msg.

Definition bind {A B : Type} (m : result A) (k : A -> result B) : result B :=
  match m with
  | inl e => inl e
  | inr a => k a
  end.

Notation "x <- m ;; k" := (bind m (fun x => k))
  (at level 61, m at next level, right associativity).

(** ** [types.ts] *)

Record Blob := { blob_bytes : list byte; blob_type : string }.

Record File := { file_parts : list Blob; file_name : string; file_type : string }.

(** [base64] is typed [string] in the source; the chaining step stores
    [resultContent.split(',')[1]] there, which is [undefined] when the
    locator has no comma, hence the [option]. *)
Record FileData := {
  file : File;
  previewUrl : string;
  base64 : option string;
  mimeType : string
}.

Inductive ResultType := image | video | text.

Inductive AppState := IDLE | GENERATING | SUCCESS | ERROR.

Record PromptHistoryItem := {
  item_id : string;
  item_text : string;
  item_timestamp : Z
}.

Inductive AppMode :=
  COMPOSITE | GENERATE | EDIT | ANIMATE | ANALYZE | CULINARY | REASON.

Inductive AspectRatio :=
  R1_1 | R2_3 | R3_2 | R3_4 | R4_3 | R9_16 | R16_9 | R21_9.

Inductive ImageSize := Size1K | Size2K | Size4K.

Definition ResultType_eqb (a b : ResultType) : bool :=
  match a, b with
  | image, image | video, video | text, text => true
  | _, _ => false
  end.

Definition AppState_eqb (a b : AppState) : bool :=
  match a, b with
  | IDLE, IDLE | GENERATING, GENERATING | SUCCESS, SUCCESS | ERROR, ERROR => true
  | _, _ => false
  end.

Definition AppMode_eqb (a b : AppMode) : bool :=
  match a, b with
  | COMPOSITE, COMPOSITE | GENERATE, GENERATE | EDIT, EDIT
  | ANIMATE, ANIMATE | ANALYZE, ANALYZE | CULINARY, CULINARY
  | REASON, REASON => true
  | _, _ => false
  end.

Definition AspectRatio_eqb (a b : AspectRatio) : bool :=
  match a, b with
  | R1_1, R1_1 | R2_3, R2_3 | R3_2, R3_2 | R3_4, R3_4
  | R4_3, R4_3 | R9_16, R9_16 | R16_9, R16_9 | R21_9, R21_9 => true
  | _, _ => false
  end.

(** [Array.prototype.includes] on modes. *)
Definition includes (ms : list AppMode) (m : AppMode) : bool :=
  existsb (AppMode_eqb m) ms.

(** ** [services/geminiService.ts]: requests and responses *)

(** One element of [contents.parts] of a request. *)
Inductive Part :=
| TextPart (t : string)
| InlineDataPart (mime : string) (data : option string).

Record ImageConfig := {
  ic_aspectRatio : option AspectRatio;
  ic_imageSize : option ImageSize
}.

Record GenerateContentRequest := {
  gc_model : string;
  gc_parts : list Part;
  gc_imageConfig : option ImageConfig;
  gc_thinkingBudget : option Z;
  gc_googleSearch : bool;
  gc_responseModalities : list string;
  gc_voiceName : option string
}.

(** A part of a response: [part.text] and [part.inlineData.data]. *)
Record ResponsePart := {
  rp_text : option string;
  rp_inlineData : option (option string)
}.

(** [chunk.web] with its [title] and [uri]. *)
Record GroundingChunk := {
  web : option (option string * option string)
}.

Record Candidate := {
  content_parts : option (list ResponsePart);
  groundingChunks : option (list GroundingChunk)
}.

Record GenerateContentResponse := {
  candidates : option (list Candidate);
  response_text : option string
}.

Record GenerateVideosRequest := {
  gv_model : string;
  gv_prompt : string;
  gv_imageBytes : option string;
  gv_mimeType : string;
  gv_numberOfVideos : nat;
  gv_resolution : string;
  gv_aspectRatio : AspectRatio
}.

(** A long-running operation: [done] and
    [response?.generatedVideos?.[0]?.video?.uri]. *)
Record Operation := {
  op_name : string;
  done : bool;
  video_uri : option string
}.

(** [response.candidates?.[0]?.content?.parts || []] *)
Definition first_candidate_parts (r : GenerateContentResponse) : list ResponsePart :=
  match candidates r with
  | Some (c :: _) =>
      match content_parts c with
      | Some ps => ps
      | None => []
      end
  | _ => []
  end.

(** The loop shared by the three image adapters: the first part with
    [inlineData] gives the data URL, none is an error. *)
Fixpoint first_inline_image (ps : list ResponsePart) : result string :=
  match ps with
  | [] => throw "No image generated"
  | p :: rest =>
      match rp_inlineData p with
      | Some d => ret ("data:image/png;base64," ++ JS.interpolate d)
      | None => first_inline_image rest
      end
  end.

(** The line feed of the source's string and template literals. *)
Definition LF : string := String (ascii_of_nat 10) "".

(** The body of [groundingChunks.forEach] in [deepReasoning]. *)
Definition append_source (acc : string) (chunk : GroundingChunk) : string :=
  match web chunk with
  | Some (title, uri) =>
      if JS.truthy_opt uri
      then acc ++ "- [" ++ JS.interpolate title ++ "](" ++ JS.interpolate uri ++ ")" ++ LF
      else acc
  | None => acc
  end.

(** The character class of [/[*#\[\]()]/g]. *)
Definition markup_class (c : ascii) : bool :=
  (Ascii.eqb c "*" || Ascii.eqb c "#" || Ascii.eqb c "[" || Ascii.eqb c "]"
   || Ascii.eqb c "(" || Ascii.eqb c ")")%bool.

(** [text.replace(/[*#\[\]()]/g, '').substring(0, 1000)] *)
Definition cleanText (t : string) : string :=
  JS.substring 0 1000 (JS.remove_class markup_class t).

Definition videoRatio (ratio : AspectRatio) : AspectRatio :=
  if AspectRatio_eqb ratio R9_16 then R9_16 else R16_9.

(** The request objects the adapters build. *)

Definition generateRelationshipPhoto_request
    (bgBase64 : option string) (bgMime : string)
    (refBase64 : option string) (refMime : string)
    (description : string) : GenerateContentRequest :=
  let prompt :=
    "Edit the Background Scene by inserting the subject from Person Reference. " ++ LF ++
    "  Use the reference strictly for structural inpainting. " ++ LF ++
    "  Harmonize lighting, grain, and color temperature to match the background. " ++ LF ++
    "  Output a single photorealistic image. " ++ LF ++
    "  Context: " ++ description in
  {| gc_model := "gemini-3-pro-image-preview";
     gc_parts := [TextPart prompt; InlineDataPart bgMime bgBase64;
                  InlineDataPart refMime refBase64];
     gc_imageConfig := Some {| ic_aspectRatio := Some R1_1; ic_imageSize := Some Size2K |};
     gc_thinkingBudget := None;
     gc_googleSearch := false;
     gc_responseModalities := [];
     gc_voiceName := None |}.

Definition generateImage_request
    (prompt : string) (size : ImageSize) (ratio : AspectRatio) : GenerateContentRequest :=
  {| gc_model := "gemini-3-pro-image-preview";
     gc_parts := [TextPart prompt];
     gc_imageConfig := Some {| ic_aspectRatio := Some ratio; ic_imageSize := Some size |};
     gc_thinkingBudget := None;
     gc_googleSearch := false;
     gc_responseModalities := [];
     gc_voiceName := None |}.

Definition editImage_request
    (imageBase64 : option string) (imageMime : string) (prompt : string)
    : GenerateContentRequest :=
  {| gc_model := "gemini-2.5-flash-image";
     gc_parts := [TextPart prompt; InlineDataPart imageMime imageBase64];
     gc_imageConfig := None;
     gc_thinkingBudget := None;
     gc_googleSearch := false;
     gc_responseModalities := [];
     gc_voiceName := None |}.

Definition generateVideo_request
    (imageBase64 : option string) (imageMime : string) (prompt : string)
    (ratio : AspectRatio) : GenerateVideosRequest :=
  {| gv_model := "veo-3.1-fast-generate-preview";
     gv_prompt := JS.or_else prompt "Animate this image cinematically";
     gv_imageBytes := imageBase64;
     gv_mimeType := imageMime;
     gv_numberOfVideos := 1;
     gv_resolution := "720p";
     gv_aspectRatio := videoRatio ratio |}.

Definition analyzeImage_request
    (imageBase64 : option string) (imageMime : string) (prompt : string)
    : GenerateContentRequest :=
  {| gc_model := "gemini-3-pro-preview";
     gc_parts :=
       [TextPart (JS.or_else prompt
          "Analyze this image in extreme detail. Structure your response with headers.");
        InlineDataPart imageMime imageBase64];
     gc_imageConfig := None;
     gc_thinkingBudget := Some 32768%Z;
     gc_googleSearch := false;
     gc_responseModalities := [];
     gc_voiceName := None |}.

Definition basePrompt : string :=
  "Analyze this food image. Identify the dish, estimate the ingredients, and provide a step-by-step recipe. Also suggest a wine pairing. Use Markdown headers (#) for sections.".

Definition analyzeFood_request
    (imageBase64 : option string) (imageMime : string) (userPrompt : option string)
    : GenerateContentRequest :=
  {| gc_model := "gemini-3-pro-preview";
     gc_parts :=
       [TextPart (if JS.truthy_opt userPrompt
                  then basePrompt ++ " User note: " ++ JS.interpolate userPrompt
                  else basePrompt);
        InlineDataPart imageMime imageBase64];
     gc_imageConfig := None;
     gc_thinkingBudget := None;
     gc_googleSearch := false;
     gc_responseModalities := [];
     gc_voiceName := None |}.

Definition deepReasoning_request (prompt : string) : GenerateContentRequest :=
  {| gc_model := "gemini-3-pro-preview";
     gc_parts := [TextPart prompt];
     gc_imageConfig := None;
     gc_thinkingBudget := Some 16000%Z;
     gc_googleSearch := true;
     gc_responseModalities := [];
     gc_voiceName := None |}.

Definition generateSpeech_request (t : string) : GenerateContentRequest :=
  {| gc_model := "gemini-2.5-flash-preview-tts";
     gc_parts := [TextPart (cleanText t)];
     gc_imageConfig := None;
     gc_thinkingBudget := None;
     gc_googleSearch := false;
     gc_responseModalities := ["AUDIO"];
     gc_voiceName := Some "Kore" |}.

(** [response.candidates?.[0]?.content?.parts?.[0]?.inlineData?.data] *)
Definition first_part_audio (r : GenerateContentResponse) : option string :=
  match candidates r with
  | Some (c :: _) =>
      match content_parts c with
      | Some (p :: _) =>
          match rp_inlineData p with
          | Some d => d
          | None => None
          end
      | _ => None
      end
  | _ => None
  end.

(** [response.candidates?.[0]?.groundingMetadata?.groundingChunks] *)
Definition first_candidate_chunks (r : GenerateContentResponse)
    : option (list GroundingChunk) :=
  match candidates r with
  | Some (c :: _) => groundingChunks c
  | _ => None
  end.

(** ** The platform

    What the code calls and does not define: the generation backend
    ([ai.models.generateContent], [ai.models.generateVideos],
    [ai.operations.getVideosOperation]), [fetch] followed by [blob()],
    [URL.createObjectURL], [atob] and the injected [process.env.API_KEY].
    The status probe may answer differently each time it is asked, so it
    takes the number of the poll. *)
Record Platform := {
  API_KEY : string;
  generateContent : GenerateContentRequest -> result GenerateContentResponse;
  generateVideos : GenerateVideosRequest -> result Operation;
  getVideosOperation : nat -> Operation -> result Operation;
  fetch_blob : string -> result Blob;
  createObjectURL : Blob -> string;
  atob : string -> result string
}.

(** ** [services/geminiService.ts]: the adapters *)

Section Adapters.

Variable env : Platform.

Definition generateRelationshipPhoto
    (bgBase64 : option string) (bgMime : string)
    (refBase64 : option string) (refMime : string)
    (description : string) : result string :=
  response <- generateContent env
    (generateRelationshipPhoto_request bgBase64 bgMime refBase64 refMime description) ;;
  first_inline_image (first_candidate_parts response).

Definition generateImage
    (prompt : string) (size : ImageSize) (ratio : AspectRatio) : result string :=
  response <- generateContent env (generateImage_request prompt size ratio) ;;
  first_inline_image (first_candidate_parts response).

Definition editImage
    (imageBase64 : option string) (imageMime : string) (prompt : string)
    : result string :=
  response <- generateContent env (editImage_request imageBase64 imageMime prompt) ;;
  first_inline_image (first_candidate_parts response).

(** [while (!operation.done) { wait 5 s; operation = probe(operation) }].
    The loop has no bound in the source; [fuel] bounds the number of
    polls of the model and [None] says that the operation is still
    pending after them.  [n] counts the polls made so far. *)
Fixpoint poll (fuel n : nat) (operation : Operation) : option (result Operation) :=
  if done operation then Some (ret operation)
  else match fuel with
       | O => None
       | S fuel' =>
           match getVideosOperation env n operation with
           | inl e => Some (throw e)
           | inr operation' => poll fuel' (S n) operation'
           end
       end.

(** What [generateVideo] does once the loop has ended. *)
Definition fetch_video (operation : Operation) : result string :=
  match video_uri operation with
  | Some videoUri =>
      if JS.truthy videoUri then
        videoBlob <- fetch_blob env (videoUri ++ "&key=" ++ API_KEY env) ;;
        ret (createObjectURL env videoBlob)
      else throw "No video generated"
  | None => throw "No video generated"
  end.

Definition generateVideo (fuel : nat)
    (imageBase64 : option string) (imageMime : string) (prompt : string)
    (ratio : AspectRatio) : option (result string) :=
  match generateVideos env (generateVideo_request imageBase64 imageMime prompt ratio) with
  | inl e => Some (throw e)
  | inr operation =>
      match poll fuel 0 operation with
      | None => None
      | Some (inl e) => Some (throw e)
      | Some (inr operation') => Some (fetch_video operation')
      end
  end.

Definition analyzeImage
    (imageBase64 : option string) (imageMime : string) (prompt : string)
    : result string :=
  response <- generateContent env (analyzeImage_request imageBase64 imageMime prompt) ;;
  ret (JS.or_else_opt (response_text response) "No analysis generated.").

Definition analyzeFood
    (imageBase64 : option string) (imageMime : string) (userPrompt : option string)
    : result string :=
  response <- generateContent env (analyzeFood_request imageBase64 imageMime userPrompt) ;;
  ret (JS.or_else_opt (response_text response) "Could not analyze food.").

Definition deepReasoning (prompt : string) : result string :=
  response <- generateContent env (deepReasoning_request prompt) ;;
  let text0 := JS.or_else_opt (response_text response) "" in
  let text1 :=
    match first_candidate_chunks response with
    | Some chunks =>
        fold_left append_source chunks (text0 ++ LF ++ LF ++ "### Sources" ++ LF)
    | None => text0
    end in
  ret (JS.or_else text1 "No reasoning generated.").

(** The [ArrayBuffer] is the list of its bytes. *)
Definition generateSpeech (t : string) : result (list byte) :=
  response <- generateContent env (generateSpeech_request t) ;;
  match first_part_audio response with
  | Some base64Audio =>
      if JS.truthy base64Audio then
        binaryString <- atob env base64Audio ;;
        ret (list_byte_of_string binaryString)
      else throw "No audio generated"
  | None => throw "No audio generated"
  end.

End Adapters.

(** ** Audio decoding ([handleSpeak]) *)

(** One element of an [Int16Array].  A typed array reads its buffer in
    the byte order of the platform; that order is little-endian, the
    order the audio is produced in. *)
Definition int16_of_bytes (lo hi : byte) : Z :=
  let u := (Z.of_N (Byte.to_N lo) + 256 * Z.of_N (Byte.to_N hi))%Z in
  if (u <? 32768)%Z then u else (u - 65536)%Z.

Fixpoint int16_elements (buffer : list byte) : list Z :=
  match buffer with
  | lo :: hi :: rest => int16_of_bytes lo hi :: int16_elements rest
  | _ => []
  end.

(** [new Int16Array(arrayBuffer)]: a [RangeError] unless the byte length
    is a multiple of 2. *)
Definition Int16Array (arrayBuffer : list byte) : result (list Z) :=
  if Nat.even (List.length arrayBuffer) then ret (int16_elements arrayBuffer)
  else throw "byte length of Int16Array should be a multiple of 2".

(** [a[i] = v] on a typed array: nothing happens out of range. *)
Fixpoint store {A : Type} (i : nat) (v : A) (a : list A) : list A :=
  match a, i with
  | [], _ => []
  | _ :: t, O => v :: t
  | h :: t, S j => h :: store j v t
  end.

(** [dataInt16[i] / 32768.0].  The quotient of a 16-bit integer by 2^15
    is a binary fraction of at most 16 significant bits: it is exact in
    binary64 and unchanged by the store into a [Float32Array] (see
    [decode_sample_float32]), so the value is modelled by the rational
    itself. *)
Definition normalize (sample : Z) : Q := (sample # 32768)%Q.

(** [for (let i = 0; i < dataInt16.length; i++) float32Data[i] = ...],
    [steps] iterations from index [i]. *)
Fixpoint decode_loop (steps i : nat) (dataInt16 : list Z) (float32Data : list Q)
    : list Q :=
  match steps with
  | O => float32Data
  | S steps' =>
      decode_loop steps' (S i) dataInt16
        (store i (normalize (nth i dataInt16 0%Z)) float32Data)
  end.

(** [new Float32Array(dataInt16.length)] followed by the loop. *)
Definition decodePCM (dataInt16 : list Z) : list Q :=
  decode_loop (List.length dataInt16) 0 dataInt16
    (repeat (0 # 1)%Q (List.length dataInt16)).

(** A value of the binary32 format: [m * 2^e] with a 24-bit significand
    and an exponent of the format's range. *)
Definition float32_value (q : Q) : Prop :=
  exists m e : Z,
    (Z.abs m < 2 ^ 24)%Z /\ (-149 <= e <= 104)%Z /\
    (q == inject_Z m * Qpower (2 # 1) e)%Q.

Record AudioBuffer := {
  numberOfChannels : nat;
  sampleRate : Z;
  channelData : list Q
}.

(** [ctx.createBuffer(1, length, 24000)] and the copy of the samples; a
    buffer of no frame is refused by the audio context. *)
Definition createBuffer (float32Data : list Q) : result AudioBuffer :=
  match float32Data with
  | [] => throw "NotSupportedError"
  | _ => ret {| numberOfChannels := 1; sampleRate := 24000%Z; channelData := float32Data |}
  end.

(** ** [App.tsx]: the state of the component

    The [useState] cells of [App], in the order of the source, followed
    by what the component keeps outside React: whether
    [audioContextRef.current] holds a context, the value stored under
    the key [natural_insert_history] of [localStorage] (its JSON text is
    modelled by the list it encodes) and the buffer handed to the audio
    output. *)
Record App := {
  hasApiKey : bool;
  mode : AppMode;
  bgImage : option FileData;
  refImage : option FileData;
  description : string;
  aspectRatio : AspectRatio;
  imageSize : ImageSize;
  isVerified : bool;
  appState : AppState;
  resultContent : option string;
  resultType : ResultType;
  errorMessage : option string;
  promptHistory : list PromptHistoryItem;
  statusText : string;
  isPlayingAudio : bool;
  audioContextRef : bool;
  localStorage_history : option (list PromptHistoryItem);
  playing : option AudioBuffer
}.

(** The [setX] of each cell. *)
Definition set_hasApiKey (v : bool) (st : App) : App :=
  {| hasApiKey := v; mode := mode st; bgImage := bgImage st;
     refImage := refImage st; description := description st;
     aspectRatio := aspectRatio st; imageSize := imageSize st;
     isVerified := isVerified st; appState := appState st;
     resultContent := resultContent st; resultType := resultType st;
     errorMessage := errorMessage st; promptHistory := promptHistory st;
     statusText := statusText st; isPlayingAudio := isPlayingAudio st;
     audioContextRef := audioContextRef st;
     localStorage_history := localStorage_history st; playing := playing st |}.

Definition set_mode (v : AppMode) (st : App) : App :=
  {| hasApiKey := hasApiKey st; mode := v; bgImage := bgImage st;
     refImage := refImage st; description := description st;
     aspectRatio := aspectRatio st; imageSize := imageSize st;
     isVerified := isVerified st; appState := appState st;
     resultContent := resultContent st; resultType := resultType st;
     errorMessage := errorMessage st; promptHistory := promptHistory st;
     statusText := statusText st; isPlayingAudio := isPlayingAudio st;
     audioContextRef := audioContextRef st;
     localStorage_history := localStorage_history st; playing := playing st |}.

Definition set_bgImage (v : option FileData) (st : App) : App :=
  {| hasApiKey := hasApiKey st; mode := mode st; bgImage := v;
     refImage := refImage st; description := description st;
     aspectRatio := aspectRatio st; imageSize := imageSize st;
     isVerified := isVerified st; appState := appState st;
     resultContent := resultContent st; resultType := resultType st;
     errorMessage := errorMessage st; promptHistory := promptHistory st;
     statusText := statusText st; isPlayingAudio := isPlayingAudio st;
     audioContextRef := audioContextRef st;
     localStorage_history := localStorage_history st; playing := playing st |}.

Definition set_refImage (v : option FileData) (st : App) : App :=
  {| hasApiKey := hasApiKey st; mode := mode st; bgImage := bgImage st;
     refImage := v; description := description st;
     aspectRatio := aspectRatio st; imageSize := imageSize st;
     isVerified := isVerified st; appState := appState st;
     resultContent := resultContent st; resultType := resultType st;
     errorMessage := errorMessage st; promptHistory := promptHistory st;
     statusText := statusText st; isPlayingAudio := isPlayingAudio st;
     audioContextRef := audioContextRef st;
     localStorage_history := localStorage_history st; playing := playing st |}.

Definition set_description (v : string) (st : App) : App :=
  {| hasApiKey := hasApiKey st; mode := mode st; bgImage := bgImage st;
     refImage := refImage st; description := v;
     aspectRatio := aspectRatio st; imageSize := imageSize st;
     isVerified := isVerified st; appState := appState st;
     resultContent := resultContent st; resultType := resultType st;
     errorMessage := errorMessage st; promptHistory := promptHistory st;
     statusText := statusText st; isPlayingAudio := isPlayingAudio st;
     audioContextRef := audioContextRef st;
     localStorage_history := localStorage_history st; playing := playing st |}.

Definition set_isVerified (v : bool) (st : App) : App :=
  {| hasApiKey := hasApiKey st; mode := mode st; bgImage := bgImage st;
     refImage := refImage st; description := description st;
     aspectRatio := aspectRatio st; imageSize := imageSize st;
     isVerified := v; appState := appState st;
     resultContent := resultContent st; resultType := resultType st;
     errorMessage := errorMessage st; promptHistory := promptHistory st;
     statusText := statusText st; isPlayingAudio := isPlayingAudio st;
     audioContextRef := audioContextRef st;
     localStorage_history := localStorage_history st; playing := playing st |}.

Definition set_appState (v : AppState) (st : App) : App :=
  {| hasApiKey := hasApiKey st; mode := mode st; bgImage := bgImage st;
     refImage := refImage st; description := description st;
     aspectRatio := aspectRatio st; imageSize := imageSize st;
     isVerified := isVerified st; appState := v;
     resultContent := resultContent st; resultType := resultType st;
     errorMessage := errorMessage st; promptHistory := promptHistory st;
     statusText := statusText st; isPlayingAudio := isPlayingAudio st;
     audioContextRef := audioContextRef st;
     localStorage_history := localStorage_history st; playing := playing st |}.

Definition set_resultContent (v : option string) (st : App) : App :=
  {| hasApiKey := hasApiKey st; mode := mode st; bgImage := bgImage st;
     refImage := refImage st; description := description st;
     aspectRatio := aspectRatio st; imageSize := imageSize st;
     isVerified := isVerified st; appState := appState st;
     resultContent := v; resultType := resultType st;
     errorMessage := errorMessage st; promptHistory := promptHistory st;
     statusText := statusText st; isPlayingAudio := isPlayingAudio st;
     audioContextRef := audioContextRef st;
     localStorage_history := localStorage_history st; playing := playing st |}.

Definition set_resultType (v : ResultType) (st : App) : App :=
  {| hasApiKey := hasApiKey st; mode := mode st; bgImage := bgImage st;
     refImage := refImage st; description := description st;
     aspectRatio := aspectRatio st; imageSize := imageSize st;
     isVerified := isVerified st; appState := appState st;
     resultContent := resultContent st; resultType := v;
     errorMessage := errorMessage st; promptHistory := promptHistory st;
     statusText := statusText st; isPlayingAudio := isPlayingAudio st;
     audioContextRef := audioContextRef st;
     localStorage_history := localStorage_history st; playing := playing st |}.

Definition set_errorMessage (v : option string) (st : App) : App :=
  {| hasApiKey := hasApiKey st; mode := mode st; bgImage := bgImage st;
     refImage := refImage st; description := description st;
     aspectRatio := aspectRatio st; imageSize := imageSize st;
     isVerified := isVerified st; appState := appState st;
     resultContent := resultContent st; resultType := resultType st;
     errorMessage := v; promptHistory := promptHistory st;
     statusText := statusText st; isPlayingAudio := isPlayingAudio st;
     audioContextRef := audioContextRef st;
     localStorage_history := localStorage_history st; playing := playing st |}.

Definition set_promptHistory (v : list PromptHistoryItem) (st : App) : App :=
  {| hasApiKey := hasApiKey st; mode := mode st; bgImage := bgImage st;
     refImage := refImage st; description := description st;
     aspectRatio := aspectRatio st; imageSize := imageSize st;
     isVerified := isVerified st; appState := appState st;
     resultContent := resultContent st; resultType := resultType st;
     errorMessage := errorMessage st; promptHistory := v;
     statusText := statusText st; isPlayingAudio := isPlayingAudio st;
     audioContextRef := audioContextRef st;
     localStorage_history := localStorage_history st; playing := playing st |}.

Definition set_statusText (v : string) (st : App) : App :=
  {| hasApiKey := hasApiKey st; mode := mode st; bgImage := bgImage st;
     refImage := refImage st; description := description st;
     aspectRatio := aspectRatio st; imageSize := imageSize st;
     isVerified := isVerified st; appState := appState st;
     resultContent := resultContent st; resultType := resultType st;
     errorMessage := errorMessage st; promptHistory := promptHistory st;
     statusText := v; isPlayingAudio := isPlayingAudio st;
     audioContextRef := audioContextRef st;
     localStorage_history := localStorage_history st; playing := playing st |}.

Definition set_isPlayingAudio (v : bool) (st : App) : App :=
  {| hasApiKey := hasApiKey st; mode := mode st; bgImage := bgImage st;
     refImage := refImage st; description := description st;
     aspectRatio := aspectRatio st; imageSize := imageSize st;
     isVerified := isVerified st; appState := appState st;
     resultContent := resultContent st; resultType := resultType st;
     errorMessage := errorMessage st; promptHistory := promptHistory st;
     statusText := statusText st; isPlayingAudio := v;
     audioContextRef := audioContextRef st;
     localStorage_history := localStorage_history st; playing := playing st |}.

Definition set_audioContextRef (v : bool) (st : App) : App :=
  {| hasApiKey := hasApiKey st; mode := mode st; bgImage := bgImage st;
     refImage := refImage st; description := description st;
     aspectRatio := aspectRatio st; imageSize := imageSize st;
     isVerified := isVerified st; appState := appState st;
     resultContent := resultContent st; resultType := resultType st;
     errorMessage := errorMessage st; promptHistory := promptHistory st;
     statusText := statusText st; isPlayingAudio := isPlayingAudio st;
     audioContextRef := v; localStorage_history := localStorage_history st;
     playing := playing st |}.

Definition set_localStorage_history (v : option (list PromptHistoryItem)) (st : App) : App :=
  {| hasApiKey := hasApiKey st; mode := mode st; bgImage := bgImage st;
     refImage := refImage st; description := description st;
     aspectRatio := aspectRatio st; imageSize := imageSize st;
     isVerified := isVerified st; appState := appState st;
     resultContent := resultContent st; resultType := resultType st;
     errorMessage := errorMessage st; promptHistory := promptHistory st;
     statusText := statusText st; isPlayingAudio := isPlayingAudio st;
     audioContextRef := audioContextRef st; localStorage_history := v;
     playing := playing st |}.

Definition set_playing (v : option AudioBuffer) (st : App) : App :=
  {| hasApiKey := hasApiKey st; mode := mode st; bgImage := bgImage st;
     refImage := refImage st; description := description st;
     aspectRatio := aspectRatio st; imageSize := imageSize st;
     isVerified := isVerified st; appState := appState st;
     resultContent := resultContent st; resultType := resultType st;
     errorMessage := errorMessage st; promptHistory := promptHistory st;
     statusText := statusText st; isPlayingAudio := isPlayingAudio st;
     audioContextRef := audioContextRef st;
     localStorage_history := localStorage_history st; playing := v |}.

Definition set_aspectRatio (v : AspectRatio) (st : App) : App :=
  {| hasApiKey := hasApiKey st; mode := mode st; bgImage := bgImage st;
     refImage := refImage st; description := description st;
     aspectRatio := v; imageSize := imageSize st;
     isVerified := isVerified st; appState := appState st;
     resultContent := resultContent st; resultType := resultType st;
     errorMessage := errorMessage st; promptHistory := promptHistory st;
     statusText := statusText st; isPlayingAudio := isPlayingAudio st;
     audioContextRef := audioContextRef st;
     localStorage_history := localStorage_history st; playing := playing st |}.

Definition set_imageSize (v : ImageSize) (st : App) : App :=
  {| hasApiKey := hasApiKey st; mode := mode st; bgImage := bgImage st;
     refImage := refImage st; description := description st;
     aspectRatio := aspectRatio st; imageSize := v;
     isVerified := isVerified st; appState := appState st;
     resultContent := resultContent st; resultType := resultType st;
     errorMessage := errorMessage st; promptHistory := promptHistory st;
     statusText := statusText st; isPlayingAudio := isPlayingAudio st;
     audioContextRef := audioContextRef st;
     localStorage_history := localStorage_history st; playing := playing st |}.

(** The state the component starts in. *)
Definition initial : App :=
  {| hasApiKey := false; mode := COMPOSITE; bgImage := None; refImage := None;
     description := ""; aspectRatio := R1_1; imageSize := Size1K;
     isVerified := false; appState := IDLE; resultContent := None;
     resultType := image; errorMessage := None; promptHistory := [];
     statusText := "Processing..."; isPlayingAudio := false;
     audioContextRef := false; localStorage_history := None; playing := None |}.

(** ** [App.tsx]: the operations *)

(** The updater passed to [setPromptHistory] in [addToHistory]: the next
    list and, when a new list was built, the value written to
    [localStorage].  [id] and [now] are the results of
    [crypto.randomUUID()] and [Date.now()]. *)
Definition history_updater (id : string) (now : Z) (t : string)
    (prev : list PromptHistoryItem)
    : list PromptHistoryItem * option (list PromptHistoryItem) :=
  let same_as_first :=
    match prev with
    | first :: _ => String.eqb (item_text first) t
    | [] => false
    end in
  if (Nat.ltb 0 (List.length prev) && same_as_first)%bool then (prev, None)
  else
    let newItem := {| item_id := id; item_text := JS.trim t; item_timestamp := now |} in
    let newHistory := JS.slice0 20 (newItem :: prev) in
    (newHistory, Some newHistory).

Definition addToHistory (id : string) (now : Z) (t : string) (st : App) : App :=
  if negb (JS.truthy (JS.trim t)) then st
  else
    match history_updater id now t (promptHistory st) with
    | (h, Some written) => set_localStorage_history (Some written) (set_promptHistory h st)
    | (h, None) => set_promptHistory h st
    end.

Definition getStatusMessage (m : AppMode) : string :=
  match m with
  | ANIMATE => "Rendering frames (this may take a moment)..."
  | REASON => "Accessing knowledge base & thinking..."
  | ANALYZE => "Inspecting pixels..."
  | CULINARY => "Identifying ingredients..."
  | COMPOSITE => "Blending realities..."
  | _ => "Generating..."
  end.

Definition canSubmit (st : App) : bool :=
  if AppState_eqb (appState st) GENERATING then false
  else if AppMode_eqb (mode st) REASON then JS.truthy (description st)
  else if (AppMode_eqb (mode st) GENERATE && negb (JS.truthy (description st)))%bool
  then false
  else if (includes [COMPOSITE; EDIT; ANIMATE; ANALYZE; CULINARY] (mode st)
           && negb (JS.present (bgImage st)))%bool
  then false
  else if (AppMode_eqb (mode st) COMPOSITE
           && (negb (JS.present (refImage st)) || negb (isVerified st)))%bool
  then false
  else true.

(** [handleApiKeySelect]: the key is taken as selected once the host's
    dialog, when there is one, has been shown. *)
Definition handleApiKeySelect (openSelectKey : bool) (st : App) : App :=
  if openSelectKey then set_hasApiKey true st else st.

(** The [onClick] of a navigation button: [setMode(m); setResultContent(null)].
    The buttons carry no [disabled] attribute. *)
Definition selectMode (m : AppMode) (st : App) : App :=
  set_resultContent None (set_mode m st).

(** [resultContent.split(',')[1]] *)
Definition base64_of_locator (locator : string) : option string :=
  nth_error (JS.split "," locator) 1.

Section Operations.

Variable env : Platform.

(** The statements of [handleAction] before the [try]. *)
Definition handleAction_begin (st : App) : App :=
  set_isPlayingAudio false
    (set_resultContent None
       (set_errorMessage None
          (set_statusText (getStatusMessage (mode st))
             (set_appState GENERATING st)))).

(** The [switch] of [handleAction]: the adapter call of the mode with
    the type of its result, [None] while the video operation is
    pending. *)
Definition dispatch (fuel : nat) (st : App) : option (result (string * ResultType)) :=
  match mode st with
  | COMPOSITE =>
      match bgImage st, refImage st with
      | Some bg, Some rf =>
          Some (r <- generateRelationshipPhoto env (base64 bg) (mimeType bg)
                       (base64 rf) (mimeType rf) (description st) ;;
                ret (r, image))
      | _, _ => Some (throw "Missing images")
      end
  | GENERATE =>
      Some (r <- generateImage env (description st) (imageSize st) (aspectRatio st) ;;
            ret (r, image))
  | EDIT =>
      match bgImage st with
      | Some bg =>
          Some (r <- editImage env (base64 bg) (mimeType bg) (description st) ;;
                ret (r, image))
      | None => Some (throw "Missing image")
      end
  | ANIMATE =>
      match bgImage st with
      | Some bg =>
          match generateVideo env fuel (base64 bg) (mimeType bg) (description st)
                  (aspectRatio st) with
          | Some o => Some (r <- o ;; ret (r, video))
          | None => None
          end
      | None => Some (throw "Missing image")
      end
  | ANALYZE =>
      match bgImage st with
      | Some bg =>
          Some (r <- analyzeImage env (base64 bg) (mimeType bg) (description st) ;;
                ret (r, text))
      | None => Some (throw "Missing image")
      end
  | CULINARY =>
      match bgImage st with
      | Some bg =>
          Some (r <- analyzeFood env (base64 bg) (mimeType bg) (Some (description st)) ;;
                ret (r, text))
      | None => Some (throw "Missing food image")
      end
  | REASON =>
      if negb (JS.truthy (description st)) then Some (throw "Missing prompt")
      else Some (r <- deepReasoning env (description st) ;; ret (r, text))
  end.

(** [handleAction], run to its end without another event in between.
    The closure reads [mode], the inputs and [description] of the
    state it was created in. *)
Definition handleAction (fuel : nat) (id : string) (now : Z) (st : App) : option App :=
  let st1 := handleAction_begin st in
  match dispatch fuel st with
  | None => None
  | Some (inr (r, ty)) =>
      Some (addToHistory id now (description st)
              (set_appState SUCCESS
                 (set_resultType ty (set_resultContent (Some r) st1))))
  | Some (inl message) =>
      Some (set_appState ERROR (set_errorMessage (Some message) st1))
  end.

(** The [FileData] built from a fetched image result. *)
Definition chained_image (locator : string) (blob : Blob) : FileData :=
  {| file := {| file_parts := [blob]; file_name := "chained_image.png";
                file_type := "image/png" |};
     previewUrl := locator;
     base64 := base64_of_locator locator;
     mimeType := "image/png" |}.

Definition chainResultToInput (targetMode : AppMode) (st : App) : App :=
  match resultContent st with
  | None => st
  | Some locator =>
      if negb (JS.truthy locator) then st
      else
        let st1 :=
          match resultType st with
          | image =>
              match fetch_blob env locator with
              | inr blob =>
                  set_description ""
                    (set_refImage None
                       (set_bgImage (Some (chained_image locator blob)) st))
              | inl _ => st (* console.error("Failed to chain image", e) *)
              end
          | text => set_description locator st
          | video => st
          end in
        set_appState IDLE (set_resultContent None (set_mode targetMode st1))
  end.

Definition handleSpeak (st : App) : App :=
  match resultContent st with
  | None => st
  | Some resultText =>
      if (negb (JS.truthy resultText) || negb (ResultType_eqb (resultType st) text))%bool
      then st
      else if isPlayingAudio st then st
      else
        let st1 := set_statusText "Synthesizing Audio..." (set_isPlayingAudio true st) in
        match generateSpeech env resultText with
        | inl _ =>
            set_errorMessage (Some "Audio generation failed")
              (set_isPlayingAudio false st1)
        | inr arrayBuffer =>
            let st2 := set_audioContextRef true st1 in
            match (dataInt16 <- Int16Array arrayBuffer ;;
                   createBuffer (decodePCM dataInt16)) with
            | inl _ =>
                set_errorMessage (Some "Audio generation failed")
                  (set_isPlayingAudio false st2)
            | inr buffer => set_playing (Some buffer) st2
            end
        end
  end.

(** [source.onended]: the playback is over. *)
Definition onended (st : App) : App :=
  set_playing None (set_isPlayingAudio false st).

End Operations.

(** ** What the interface offers

    The controls of the rendered component and the condition under which
    each can be used. *)
Inductive Control :=
| InitializeButton
| NavButton (m : AppMode)
| LaunchButton
| ChainButton (targetMode : AppMode)
| SpeakButton.

(** Without an API key only the key selection is rendered.  With one:
    the navigation buttons are always enabled, the launch button is
    [disabled={!canSubmit()}], the chain buttons are rendered for an
    image result and the speak button for a text result,
    [disabled={isPlayingAudio}]. *)
Definition offered (c : Control) (st : App) : bool :=
  match c with
  | InitializeButton => negb (hasApiKey st)
  | NavButton _ => hasApiKey st
  | LaunchButton => (hasApiKey st && canSubmit st)%bool
  | ChainButton targetMode =>
      (hasApiKey st
       && JS.truthy_opt (resultContent st)
       && ResultType_eqb (resultType st) image
       && includes [ANIMATE; EDIT; ANALYZE] targetMode)%bool
  | SpeakButton =>
      (hasApiKey st
       && JS.truthy_opt (resultContent st)
       && ResultType_eqb (resultType st) text
       && negb (isPlayingAudio st))%bool
  end.

(** The chain operation as the program exposes it.  [chainResultToInput]
    is a closure of the component and its only call sites are the
    [onClick] handlers of the three chain buttons, which exist only
    while they are rendered: pressing a chain button runs the closure
    when the button is offered, and there is nothing to press, hence no
    transition, when it is not. *)
Definition pressChainButton (env : Platform) (targetMode : AppMode) (st : App) : App :=
  if offered (ChainButton targetMode) st then chainResultToInput env targetMode st
  else st.

(** ** The submit predicate as the specification words it *)

Definition canSubmit_spec (st : App) : Prop :=
  match mode st with
  | REASON | GENERATE => description st <> ""
  | EDIT | ANIMATE | ANALYZE | CULINARY => bgImage st <> None
  | COMPOSITE =>
      bgImage st <> None /\ refImage st <> None /\ isVerified st = true
  end.

(** ** Example states *)

Definition png_blob : Blob :=
  {| blob_bytes := [x89; x50; x4e; x47]; blob_type := "image/png" |}.

Definition sample_upload (name : string) : FileData :=
  {| file := {| file_parts := [png_blob]; file_name := name; file_type := "image/png" |};
     previewUrl := "blob:" ++ name;
     base64 := Some "iVBORw0KGgo=";
     mimeType := "image/png" |}.

(** The component once the API key is selected. *)
Definition started : App := handleApiKeySelect true initial.

(** Composite mode with both images uploaded and ownership confirmed. *)
Definition composite_ready : App :=
  set_isVerified true
    (set_refImage (Some (sample_upload "subject.png"))
       (set_bgImage (Some (sample_upload "scene.png")) started)).

(** A platform on which every call fails. *)
Definition offline : Platform :=
  {| API_KEY := "key";
     generateContent := fun _ => throw "network";
     generateVideos := fun _ => throw "network";
     getVideosOperation := fun _ _ => throw "network";
     fetch_blob := fun _ => throw "Failed to fetch";
     createObjectURL := fun _ => "blob:0";
     atob := fun _ => throw "InvalidCharacterError" |}.

(** A platform whose backend answers every content request with [r]. *)
Definition answering (r : GenerateContentResponse) : Platform :=
  {| API_KEY := "key";
     generateContent := fun _ => ret r;
     generateVideos := fun _ =>
       ret {| op_name := "operations/1"; done := true; video_uri := None |};
     getVideosOperation := fun _ op => ret op;
     fetch_blob := fun _ => ret png_blob;
     createObjectURL := fun _ => "blob:0";
     atob := fun b => ret b |}.

(** A response without candidates and with the given text. *)
Definition text_response (t : option string) : GenerateContentResponse :=
  {| candidates := None; response_text := t |}.

(** An image result is on display after a successful composite. *)
Definition showing_image : App :=
  set_appState SUCCESS
    (set_resultType image
       (set_resultContent (Some "data:image/png;base64,AAAA") composite_ready)).

(** A video result is on display. *)
Definition showing_video : App :=
  set_appState SUCCESS
    (set_resultType video
       (set_resultContent (Some "blob:video-1")
          (set_mode ANIMATE composite_ready))).

(** Analyze mode with an image uploaded and the given directive text. *)
Definition analyze_ready (directive : string) : App :=
  set_description directive
    (set_bgImage (Some (sample_upload "photo.png")) (set_mode ANALYZE started)).

(** A sequence of submits that succeeded: each adds its directive text
    to the history, with the identifier and the time it drew. *)
Definition record_submits (submits : list (string * Z * string)) (st : App) : App :=
  fold_left (fun s '(id, now, t) => addToHistory id now t s) submits st.

(** Twenty-one distinct directives, in the order they are submitted. *)
Definition directives21 : list (string * Z * string) :=
  map (fun n => (String (ascii_of_nat (65 + n)) "", Z.of_nat n,
                 "prompt " ++ String (ascii_of_nat (65 + n)) ""))
      (seq 0 21).

(** Animate mode with an image uploaded, a directive and a requested
    aspect ratio. *)
Definition animate_ready (directive : string) (ratio : AspectRatio) : App :=
  set_aspectRatio ratio
    (set_description directive
       (set_bgImage (Some (sample_upload "photo.png")) (set_mode ANIMATE started))).

(** A result text with Markdown markup. *)
Definition markdown_text : string := "# Title" ++ LF ++ "**bold** [link](url)".

(** The response has no part with media. *)
Definition no_media (r : GenerateContentResponse) : bool :=
  forallb (fun p => negb (JS.present (rp_inlineData p))) (first_candidate_parts r).

(** The response has no text, or the empty text. *)
Definition no_text (r : GenerateContentResponse) : bool :=
  negb (JS.truthy_opt (response_text r)).

(** ** [components/ImageUpload.tsx]

    [handleFileChange] on the files of the input element.
    [readAsDataURL] is the text the [FileReader] delivers to [onload]
    for a file ([None] when it delivers none) and [objectURL] is
    [URL.createObjectURL].  The result is the [FileData] passed to
    [onChange], if [onChange] is called at all. *)
Definition handleFileChange
    (readAsDataURL : File -> option string) (objectURL : File -> string)
    (files : list File) : option FileData :=
  match files with
  | [] => None
  | chosen :: _ =>
      match readAsDataURL chosen with
      | Some dataUrl =>
          if JS.truthy dataUrl then
            Some {| file := chosen;
                    previewUrl := objectURL chosen;
                    base64 := nth_error (JS.split "," dataUrl) 1;
                    mimeType := file_type chosen |}
          else None
      | None => None
      end
  end.

(** ** [App.tsx]: the handlers given to [PromptHistory] and the effect
    run when the component is mounted *)

(** [onSelect={setDescription}] *)
Definition onSelect (t : string) (st : App) : App := set_description t st.

(** [onDelete]: the entries of another identifier, displayed and stored. *)
Definition onDelete (id : string) (st : App) : App :=
  let nh := filter (fun i => negb (String.eqb (item_id i) id)) (promptHistory st) in
  set_localStorage_history (Some nh) (set_promptHistory nh st).

(** [onClear]: [setPromptHistory([])] and [localStorage.removeItem]. *)
Definition onClear (st : App) : App :=
  set_localStorage_history None (set_promptHistory [] st).

(** The part of the mount effect that reads [localStorage]. *)
Definition loadHistory (st : App) : App :=
  match localStorage_history st with
  | Some savedHistory => set_promptHistory savedHistory st
  | None => st
  end.

(** The component mounted over a given content of [localStorage]. *)
Definition mounted (saved : option (list PromptHistoryItem)) : App :=
  loadHistory (set_localStorage_history saved initial).

(** What can happen to the history: a successful submit records its
    directive, an entry is deleted, the list is purged. *)
Inductive HistoryOp :=
| Recorded (id : string) (now : Z) (t : string)
| Deleted (id : string)
| Purged.

Definition apply_history_op (st : App) (op : HistoryOp) : App :=
  match op with
  | Recorded id now t => addToHistory id now t st
  | Deleted id => onDelete id st
  | Purged => onClear st
  end.

Definition apply_history_ops (ops : list HistoryOp) (st : App) : App :=
  fold_left apply_history_op ops st.

(** The list [localStorage] stands for: none when the key is absent. *)
Definition stored_history (st : App) : list PromptHistoryItem :=
  match localStorage_history st with
  | Some h => h
  | None => []
  end.

(** ** Auxiliary notions of the statements *)

(** The string has no comma. *)
Definition comma_free (s : string) : bool :=
  negb (JS.contains_class (fun c => Ascii.eqb c ",") s).

(** The line [deepReasoning] appends for a citation, empty for a chunk
    without [web.uri]. *)
Definition citation_line (chunk : GroundingChunk) : string :=
  match web chunk with
  | Some (title, uri) =>
      if JS.truthy_opt uri
      then "- [" ++ JS.interpolate title ++ "](" ++ JS.interpolate uri ++ ")" ++ LF
      else ""
  | None => ""
  end.

(** A text is blank when trimming leaves nothing. *)
Definition blank (t : string) : bool := negb (JS.truthy (JS.trim t)).

(** The displayed history is the stored one. *)
Definition history_mirrored (st : App) : Prop :=
  promptHistory st = stored_history st.

(** An entry as [addToHistory] writes them: trimmed and not blank. *)
Definition well_trimmed (i : PromptHistoryItem) : Prop :=
  JS.trim (item_text i) = item_text i /\ item_text i <> "".

(** More example platforms. *)

(** Every call fails with the message [m]. *)
Definition failing (m : string) : Platform :=
  {| API_KEY := "key";
     generateContent := fun _ => throw m;
     generateVideos := fun _ => throw m;
     getVideosOperation := fun _ _ => throw m;
     fetch_blob := fun _ => throw m;
     createObjectURL := fun _ => "blob:0";
     atob := fun _ => throw m |}.

(** The video operation is finished at the [k]-th probe and not before;
    the content backend answers with [r]. *)
Definition finishing_at (k : nat) (r : GenerateContentResponse) : Platform :=
  {| API_KEY := "key";
     generateContent := fun _ => ret r;
     generateVideos := fun _ =>
       ret {| op_name := "operations/7"; done := Nat.eqb k 0;
              video_uri := Some "https://videos.example/7?alt=media" |};
     getVideosOperation := fun n op =>
       ret {| op_name := op_name op; done := Nat.eqb (S n) k;
              video_uri := video_uri op |};
     fetch_blob := fun _ => ret png_blob;
     createObjectURL := fun _ => "blob:video-7";
     atob := fun b => ret b |}.

(** The video operation is finished at the [k]-th probe and not before,
    and never carries a video locator. *)
Definition finishing_without_locator (k : nat) : Platform :=
  {| API_KEY := "key";
     generateContent := fun _ => throw "network";
     generateVideos := fun _ =>
       ret {| op_name := "operations/5"; done := Nat.eqb k 0; video_uri := None |};
     getVideosOperation := fun n op =>
       ret {| op_name := op_name op; done := Nat.eqb (S n) k; video_uri := None |};
     fetch_blob := fun _ => ret png_blob;
     createObjectURL := fun _ => "blob:0";
     atob := fun b => ret b |}.

(** The video operation is never finished. *)
Definition stalled : Platform :=
  {| API_KEY := "key";
     generateContent := fun _ => throw "network";
     generateVideos := fun _ =>
       ret {| op_name := "operations/9"; done := false; video_uri := None |};
     getVideosOperation := fun _ op => ret op;
     fetch_blob := fun _ => ret png_blob;
     createObjectURL := fun _ => "blob:0";
     atob := fun b => ret b |}.

(** A response whose only candidate has the given parts. *)
Definition parts_response (ps : list ResponsePart) : GenerateContentResponse :=
  {| candidates := Some [{| content_parts := Some ps; groundingChunks := None |}];
     response_text := None |}.

(** A response with text and citation data. *)
Definition cited_response (t : option string) (chunks : list GroundingChunk)
    : GenerateContentResponse :=
  {| candidates := Some [{| content_parts := None; groundingChunks := Some chunks |}];
     response_text := t |}.

(** A text result is on display. *)
Definition showing_text : App :=
  set_appState SUCCESS
    (set_resultType text
       (set_resultContent (Some ("# Dish" ++ LF ++ "A **stew**."))
          (set_mode CULINARY composite_ready))).

(** * Properties *)

(** ** Strings *)

Lemma truthy_false_iff (s : string) : JS.truthy s = false <-> s = "".
Proof.
  destruct s; simpl; split; congruence.
Qed.

Lemma truthy_true_iff (s : string) : JS.truthy s = true <-> s <> "".
Proof.
  destruct s; simpl; split; congruence.
Qed.

Lemma present_true_iff {A : Type} (o : option A) : JS.present o = true <-> o <> None.
Proof.
  destruct o; simpl; split; congruence.
Qed.

Lemma or_else_empty (b : string) : JS.or_else "" b = b.
Proof. reflexivity. Qed.

Lemma or_else_nonempty (a b : string) : a <> "" -> JS.or_else a b = a.
Proof.
  destruct a; [congruence | reflexivity].
Qed.

(** ** The submit predicate *)

Lemma AppState_eqb_eq (a b : AppState) : AppState_eqb a b = true <-> a = b.
Proof.
  destruct a, b; simpl; split; congruence.
Qed.

(** C1. [canSubmit] is a function of the mode, the inputs (the two
    images, the directive text and the ownership flag) and the session
    state alone.  It is false whenever the session is generating;
    otherwise it is true exactly when the requirement of the mode holds
    (directive text for Reason and Generate, the primary image for the
    five image modes, and for Composite also the reference image and
    the ownership flag).  In Composite mode, setting the flag back to
    false makes the predicate false again. *)
Theorem canSubmit_characterisation (st : App) :
  (forall st' : App,
      mode st' = mode st -> bgImage st' = bgImage st ->
      refImage st' = refImage st -> description st' = description st ->
      isVerified st' = isVerified st -> appState st' = appState st ->
      canSubmit st' = canSubmit st) /\
  (appState st = GENERATING -> canSubmit st = false) /\
  (appState st <> GENERATING -> (canSubmit st = true <-> canSubmit_spec st)) /\
  (mode st = COMPOSITE ->
   canSubmit (set_isVerified false (set_isVerified true st)) = false).
Proof.
  repeat split.
  - intros st' Hm Hb Hr Hd Hv Ha. unfold canSubmit.
    rewrite Hm, Hb, Hr, Hd, Hv, Ha. reflexivity.
  - intros Hg. unfold canSubmit. rewrite Hg. reflexivity.
  - intros Hc. unfold canSubmit, canSubmit_spec in *.
    destruct (appState st); try congruence;
      destruct (mode st); simpl in *;
      destruct (description st); simpl in *; try congruence;
      destruct (bgImage st); simpl in *; try congruence;
      destruct (refImage st); simpl in *; try congruence;
      destruct (isVerified st); simpl in *; try congruence;
      repeat split; congruence.
  - intros Hs. unfold canSubmit, canSubmit_spec in *.
    destruct (appState st); try congruence;
      destruct (mode st); simpl in *;
      destruct (description st); simpl in *; try congruence;
      destruct (bgImage st); simpl in *; try congruence;
      destruct (refImage st); simpl in *; try congruence;
      destruct (isVerified st); simpl in *; try congruence;
      intuition congruence.
  - intros Hm. unfold canSubmit. simpl. rewrite Hm. simpl.
    destruct (appState st); simpl; try reflexivity;
      destruct (bgImage st); simpl; try reflexivity;
      destruct (refImage st); reflexivity.
Qed.

(** The characterisation at [composite_ready]: the session is idle, the
    predicate holds, and it stops holding once the flag is cleared. *)
Lemma canSubmit_characterisation_witness :
  appState composite_ready <> GENERATING /\
  canSubmit composite_ready = true /\
  canSubmit (set_isVerified false (set_isVerified true composite_ready)) = false.
Proof.
  destruct (canSubmit_characterisation composite_ready) as (_ & _ & Hiff & Htoggle).
  assert (Hidle : appState composite_ready <> GENERATING) by (simpl; discriminate).
  split; [exact Hidle | split].
  - apply (proj2 (Hiff Hidle)). simpl. repeat split; discriminate.
  - apply Htoggle. reflexivity.
Defined.

(** ** Switching mode *)

(** C5, as stated, fails: the navigation button is offered while the
    session is generating, pressing it then changes the mode, and the
    session state is not set to Idle. *)
Lemma selectMode_not_guarded :
  let st := handleAction_begin composite_ready in
  appState st = GENERATING /\
  offered (NavButton REASON) st = true /\
  mode (selectMode REASON st) = REASON /\
  mode (selectMode REASON st) <> mode st /\
  appState (selectMode REASON st) <> IDLE.
Proof.
  simpl. repeat split; discriminate.
Qed.

(** C5, amended.  The mode switch is offered whenever the interface is
    shown, whatever the session state, and is a total operation.  It
    sets the mode to [m] and clears the active result; the primary and
    the reference image, the directive text and the session state are
    left as they were. *)
Theorem selectMode_effect (m : AppMode) (st : App) :
  offered (NavButton m) st = hasApiKey st /\
  mode (selectMode m st) = m /\
  resultContent (selectMode m st) = None /\
  bgImage (selectMode m st) = bgImage st /\
  refImage (selectMode m st) = refImage st /\
  description (selectMode m st) = description st /\
  appState (selectMode m st) = appState st.
Proof.
  repeat split.
Qed.

(** ** Chaining a result *)

(** When there is a result to chain, the operation always ends in the
    target mode, idle, with the result cleared. *)
Lemma chain_tail (env : Platform) (targetMode : AppMode) (st : App) :
  JS.truthy_opt (resultContent st) = true ->
  let st' := chainResultToInput env targetMode st in
  mode st' = targetMode /\ appState st' = IDLE /\ resultContent st' = None.
Proof.
  unfold chainResultToInput. intros H.
  destruct (resultContent st) as [locator|]; simpl in H; [|discriminate].
  rewrite H. simpl. repeat split.
Qed.

(** Without a result the operation does nothing. *)
Lemma chain_without_result (env : Platform) (targetMode : AppMode) (st : App) :
  JS.truthy_opt (resultContent st) = false ->
  chainResultToInput env targetMode st = st.
Proof.
  unfold chainResultToInput. intros H.
  destruct (resultContent st) as [locator|]; simpl in H; [|reflexivity].
  rewrite H. reflexivity.
Qed.

(** C2, as stated, fails: with the image result of [showing_image] and a
    platform on which the fetch fails, chaining into Edit switches the
    mode, leaves the Success state and drops the result. *)
Lemma chain_fetch_failure_not_atomic :
  let st := showing_image in
  let st' := chainResultToInput offline EDIT st in
  fetch_blob offline "data:image/png;base64,AAAA" = inl "Failed to fetch" /\
  mode st = COMPOSITE /\ mode st' = EDIT /\
  appState st = SUCCESS /\ appState st' = IDLE /\
  resultContent st = Some "data:image/png;base64,AAAA" /\ resultContent st' = None /\
  errorMessage st' = None.
Proof.
  simpl. repeat split.
Qed.

(** C2, amended.  When the refetch of an active image result fails, the
    chain operation raises nothing: the failure is caught, no error is
    stored for display, and the primary image, the reference image and
    the directive text are preserved. *)
Theorem chain_fetch_failure_keeps_inputs
    (env : Platform) (targetMode : AppMode) (st : App) (locator e : string) :
  resultContent st = Some locator ->
  locator <> "" ->
  resultType st = image ->
  fetch_blob env locator = inl e ->
  let st' := chainResultToInput env targetMode st in
  bgImage st' = bgImage st /\
  refImage st' = refImage st /\
  description st' = description st /\
  errorMessage st' = errorMessage st.
Proof.
  intros Hr Hl Ht Hf. unfold chainResultToInput.
  rewrite Hr, Ht, Hf.
  apply truthy_true_iff in Hl. rewrite Hl. simpl. repeat split.
Qed.

Lemma chain_fetch_failure_keeps_inputs_witness :
  let st' := chainResultToInput offline EDIT showing_image in
  bgImage st' = bgImage showing_image /\
  refImage st' = refImage showing_image /\
  description st' = description showing_image /\
  errorMessage st' = errorMessage showing_image.
Proof.
  apply (chain_fetch_failure_keeps_inputs offline EDIT showing_image
           "data:image/png;base64,AAAA" "Failed to fetch").
  - reflexivity.
  - discriminate.
  - reflexivity.
  - reflexivity.
Defined.

(** The chain buttons are rendered for an image result only. *)
Lemma chain_button_needs_image (targetMode : AppMode) (st : App) :
  offered (ChainButton targetMode) st = true -> resultType st = image.
Proof.
  simpl. rewrite !andb_true_iff. intros [[[_ _] Ht] _].
  destruct (resultType st); simpl in Ht; congruence.
Qed.

(** Pressing an offered chain button runs the closure. *)
Lemma pressChainButton_offered (env : Platform) (targetMode : AppMode) (st : App) :
  offered (ChainButton targetMode) st = true ->
  pressChainButton env targetMode st = chainResultToInput env targetMode st.
Proof.
  intros H. unfold pressChainButton. rewrite H. reflexivity.
Qed.

(** C8.  Video artifacts are not chainable.  While the active result is
    a video no chain button is offered, for any target mode, so the
    chain operation performs no transition: the session is left as it
    is, with its mode, session state, active result, both images and
    directive text. *)
Theorem video_not_chainable (env : Platform) (targetMode : AppMode) (st : App) :
  resultType st = video ->
  offered (ChainButton targetMode) st = false /\
  pressChainButton env targetMode st = st /\
  mode (pressChainButton env targetMode st) = mode st /\
  appState (pressChainButton env targetMode st) = appState st /\
  resultContent (pressChainButton env targetMode st) = resultContent st /\
  resultType (pressChainButton env targetMode st) = resultType st /\
  bgImage (pressChainButton env targetMode st) = bgImage st /\
  refImage (pressChainButton env targetMode st) = refImage st /\
  description (pressChainButton env targetMode st) = description st.
Proof.
  intros Hv.
  assert (Hoff : offered (ChainButton targetMode) st = false).
  { destruct (offered (ChainButton targetMode) st) eqn:H; [|reflexivity].
    apply chain_button_needs_image in H. congruence. }
  assert (Hsame : pressChainButton env targetMode st = st).
  { unfold pressChainButton. rewrite Hoff. reflexivity. }
  rewrite Hsame. repeat split. exact Hoff.
Qed.

(** With the video of [showing_video] on display, the chain into Edit
    leaves the session in Animate mode, in Success, with its video. *)
Lemma video_not_chainable_witness :
  pressChainButton offline EDIT showing_video = showing_video /\
  mode (pressChainButton offline EDIT showing_video) = ANIMATE /\
  appState (pressChainButton offline EDIT showing_video) = SUCCESS /\
  resultContent (pressChainButton offline EDIT showing_video) = Some "blob:video-1".
Proof.
  destruct (video_not_chainable offline EDIT showing_video eq_refl)
    as (_ & Hsame & Hm & Ha & Hr & _).
  split; [exact Hsame | split; [|split]].
  - rewrite Hm. reflexivity.
  - rewrite Ha. reflexivity.
  - rewrite Hr. reflexivity.
Defined.

(** With the image of [showing_image] on display the same button does
    chain. *)
Lemma image_is_chainable :
  offered (ChainButton EDIT) showing_image = true /\
  mode (pressChainButton (answering (text_response None)) EDIT showing_image) = EDIT.
Proof.
  split; reflexivity.
Qed.

(** ** The prompt history *)

Lemma slice0_length {A : Type} (n : nat) (xs : list A) :
  List.length (JS.slice0 n xs) <= n.
Proof.
  unfold JS.slice0. rewrite length_firstn. lia.
Qed.

(** What the updater returns, by cases on the first stored entry. *)
Lemma history_updater_same (id : string) (now : Z) (t : string)
    (first : PromptHistoryItem) (rest : list PromptHistoryItem) :
  item_text first = t ->
  history_updater id now t (first :: rest) = (first :: rest, None).
Proof.
  intros H. unfold history_updater. simpl. rewrite H, String.eqb_refl. reflexivity.
Qed.

Lemma history_updater_new (id : string) (now : Z) (t : string)
    (prev : list PromptHistoryItem) :
  (forall first rest, prev = first :: rest -> item_text first <> t) ->
  let newHistory :=
    JS.slice0 20 ({| item_id := id; item_text := JS.trim t; item_timestamp := now |} :: prev) in
  history_updater id now t prev = (newHistory, Some newHistory).
Proof.
  intros H. unfold history_updater.
  destruct prev as [|first rest]; [reflexivity|].
  simpl. specialize (H first rest eq_refl).
  apply String.eqb_neq in H. rewrite H. reflexivity.
Qed.

Lemma addToHistory_history (id : string) (now : Z) (t : string) (st : App) :
  promptHistory (addToHistory id now t st)
  = if negb (JS.truthy (JS.trim t)) then promptHistory st
    else fst (history_updater id now t (promptHistory st)).
Proof.
  unfold addToHistory. destruct (negb (JS.truthy (JS.trim t))); [reflexivity|].
  destruct (history_updater id now t (promptHistory st)) as [h [written|]]; reflexivity.
Qed.

Lemma history_updater_length (id : string) (now : Z) (t : string)
    (prev : list PromptHistoryItem) :
  List.length prev <= 20 ->
  List.length (fst (history_updater id now t prev)) <= 20.
Proof.
  intros H. unfold history_updater.
  match goal with |- context [if ?b then _ else _] => destruct b end; cbn [fst].
  - exact H.
  - apply slice0_length.
Qed.

Lemma addToHistory_length (id : string) (now : Z) (t : string) (st : App) :
  List.length (promptHistory st) <= 20 ->
  List.length (promptHistory (addToHistory id now t st)) <= 20.
Proof.
  intros H. rewrite addToHistory_history.
  destruct (negb (JS.truthy (JS.trim t))); [exact H|].
  apply history_updater_length. exact H.
Qed.

Lemma record_submits_length (submits : list (string * Z * string)) (st : App) :
  List.length (promptHistory st) <= 20 ->
  List.length (promptHistory (record_submits submits st)) <= 20.
Proof.
  revert st. unfold record_submits.
  induction submits as [|[[id now] t] submits IH]; intros st H; simpl.
  - exact H.
  - apply IH. apply addToHistory_length. exact H.
Qed.

(** C6, as stated, fails.  A successful Analyze submit with an empty
    directive inserts no entry although there is no stored entry for its
    text to be equal to; and the directive [" a"], submitted twice in a
    row in Analyze mode, leaves two entries, because the stored text is
    trimmed and the comparison uses the text as typed. *)
Lemma history_insertion_not_as_stated :
  let env := answering (text_response (Some "A cat.")) in
  let once d := handleAction env 0 "id-1" 1 (analyze_ready d) in
  let twice d :=
    match once d with
    | Some st1 => handleAction env 0 "id-2" 2 st1
    | None => None
    end in
  option_map appState (once "") = Some SUCCESS /\
  option_map promptHistory (once "") = Some [] /\
  option_map appState (once " a") = Some SUCCESS /\
  option_map description (once " a") = Some " a" /\
  option_map appState (twice " a") = Some SUCCESS /\
  option_map (fun st => map item_text (promptHistory st)) (twice " a")
  = Some ["a"; "a"].
Proof.
  vm_compute. repeat split.
Qed.

(** C6, amended.  A submit whose directive text is blank (empty after
    trimming) inserts nothing.  For a text that is not blank and has no
    white space at either end: when it equals the text of the first
    stored entry the list is left as it is, so a second submit of the
    same text in a row inserts nothing; otherwise a new entry with that
    text, the identifier and the time drawn is put at the front and the
    list is cut to its first 20 entries.  A list of at most 20 entries
    stays one through any sequence of submits. *)
Theorem addToHistory_effect (id : string) (now : Z) (t : string) (st : App) :
  (JS.trim t = "" -> addToHistory id now t st = st) /\
  (JS.trim t = t -> t <> "" ->
   ((forall first rest,
        promptHistory st = first :: rest -> item_text first = t ->
        promptHistory (addToHistory id now t st) = promptHistory st) /\
    ((forall first rest, promptHistory st = first :: rest -> item_text first <> t) ->
     promptHistory (addToHistory id now t st)
     = firstn 20 ({| item_id := id; item_text := t; item_timestamp := now |}
                    :: promptHistory st)) /\
    (forall id' now',
        promptHistory (addToHistory id' now' t (addToHistory id now t st))
        = promptHistory (addToHistory id now t st)))) /\
  (forall submits,
      List.length (promptHistory st) <= 20 ->
      List.length (promptHistory (record_submits submits st)) <= 20).
Proof.
  split; [|split].
  - intros H. unfold addToHistory. rewrite H. reflexivity.
  - intros Htrim Hne.
    assert (Hgo : negb (JS.truthy (JS.trim t)) = false).
    { rewrite Htrim. apply truthy_true_iff in Hne. rewrite Hne. reflexivity. }
    assert (Hsame : forall id0 now0 s first rest,
               promptHistory s = first :: rest -> item_text first = t ->
               promptHistory (addToHistory id0 now0 t s) = promptHistory s).
    { intros id0 now0 s first rest Hp Hf. unfold addToHistory. rewrite Hgo, Hp.
      rewrite (history_updater_same id0 now0 t first rest Hf). reflexivity. }
    assert (Hnew : (forall first rest,
                       promptHistory st = first :: rest -> item_text first <> t) ->
                   promptHistory (addToHistory id now t st)
                   = firstn 20 ({| item_id := id; item_text := t; item_timestamp := now |}
                                  :: promptHistory st)).
    { intros Hd. unfold addToHistory. rewrite Hgo.
      rewrite (history_updater_new id now t (promptHistory st) Hd).
      rewrite Htrim. reflexivity. }
    split; [|split].
    + intros first rest. apply Hsame.
    + exact Hnew.
    + intros id' now'.
      destruct (promptHistory st) as [|first rest] eqn:Hp.
      * assert (Hins : promptHistory (addToHistory id now t st)
                       = [{| item_id := id; item_text := t; item_timestamp := now |}]).
        { rewrite Hnew; [reflexivity|]. intros f r Hfr. discriminate. }
        apply (Hsame id' now' _ _ _ Hins). reflexivity.
      * destruct (String.eqb (item_text first) t) eqn:He.
        -- apply String.eqb_eq in He.
           assert (Hkept : promptHistory (addToHistory id now t st) = first :: rest).
           { rewrite (Hsame id now st first rest Hp He). exact Hp. }
           apply (Hsame id' now' _ _ _ Hkept He).
        -- apply String.eqb_neq in He.
           assert (Hins : promptHistory (addToHistory id now t st)
                          = {| item_id := id; item_text := t; item_timestamp := now |}
                              :: firstn 19 (first :: rest)).
           { rewrite Hnew; [reflexivity|].
             intros f r Hfr. inversion Hfr; subst. exact He. }
           apply (Hsame id' now' _ _ _ Hins). reflexivity.
  - intros submits. apply record_submits_length.
Qed.

(** The effect at the directive ["a"] on the empty history: one entry
    after one submit and still one after a second. *)
Lemma addToHistory_effect_witness :
  map item_text (promptHistory (addToHistory "id-1" 1 "a" initial)) = ["a"] /\
  promptHistory (addToHistory "id-2" 2 "a" (addToHistory "id-1" 1 "a" initial))
  = promptHistory (addToHistory "id-1" 1 "a" initial).
Proof.
  destruct (addToHistory_effect "id-1" 1 "a" initial) as (_ & H & _).
  destruct H as (_ & Hnew & Htwice); [reflexivity | discriminate |].
  split.
  - rewrite Hnew; [reflexivity|]. intros first rest Hp. discriminate.
  - apply Htwice.
Defined.

(** Twenty-one distinct directives leave the twenty most recent, the
    most recent first; the first one submitted is gone. *)
Lemma history_of_21_directives :
  map item_text (promptHistory (record_submits directives21 initial))
  = map (fun '(_, _, t) => t) (firstn 20 (rev directives21)).
Proof. vm_compute. reflexivity. Qed.

(** ** The narration input *)

Lemma drop_0 (s : string) : JS.drop 0 s = s.
Proof. destruct s; reflexivity. Qed.

Lemma take_min_length (n : nat) (s : string) :
  JS.take (Nat.min n (String.length s)) s = JS.take n s.
Proof.
  revert s. induction n as [|n IH]; intros s.
  - reflexivity.
  - destruct s as [|c r]; simpl.
    + reflexivity.
    + rewrite IH. reflexivity.
Qed.

(** [s.substring(0, n)] is the first [n] units of [s]. *)
Lemma substring_0 (n : nat) (s : string) : JS.substring 0 n s = JS.take n s.
Proof.
  unfold JS.substring. rewrite Nat.min_0_l, Nat.min_0_l, Nat.max_0_l, Nat.sub_0_r.
  rewrite drop_0. apply take_min_length.
Qed.

Lemma take_length (n : nat) (s : string) : String.length (JS.take n s) <= n.
Proof.
  revert s. induction n as [|n IH]; intros s.
  - simpl. lia.
  - destruct s as [|c r]; simpl.
    + lia.
    + specialize (IH r). lia.
Qed.

Lemma take_all (n : nat) (s : string) : String.length s <= n -> JS.take n s = s.
Proof.
  revert s. induction n as [|n IH]; intros s H.
  - destruct s; simpl in *; [reflexivity | lia].
  - destruct s as [|c r]; simpl in *; [reflexivity|].
    rewrite IH by lia. reflexivity.
Qed.

Lemma contains_class_take (cls : ascii -> bool) (n : nat) (s : string) :
  JS.contains_class cls s = false -> JS.contains_class cls (JS.take n s) = false.
Proof.
  revert s. induction n as [|n IH]; intros s H.
  - reflexivity.
  - destruct s as [|c r]; simpl in *; [reflexivity|].
    apply orb_false_iff in H. destruct H as [Hc Hr].
    rewrite Hc, (IH r Hr). reflexivity.
Qed.

Lemma contains_class_remove (cls : ascii -> bool) (s : string) :
  JS.contains_class cls (JS.remove_class cls s) = false.
Proof.
  induction s as [|c r IH]; simpl.
  - reflexivity.
  - destruct (cls c) eqn:Hc; simpl.
    + exact IH.
    + rewrite Hc, IH. reflexivity.
Qed.

Lemma remove_class_none (cls : ascii -> bool) (s : string) :
  JS.contains_class cls s = false -> JS.remove_class cls s = s.
Proof.
  induction s as [|c r IH]; simpl; intros H.
  - reflexivity.
  - apply orb_false_iff in H. destruct H as [Hc Hr].
    rewrite Hc, (IH Hr). reflexivity.
Qed.

Lemma markup_class_spec (c : ascii) :
  markup_class c = true <->
  (c = "*" \/ c = "#" \/ c = "[" \/ c = "]" \/ c = "(" \/ c = ")")%char.
Proof.
  unfold markup_class. rewrite !orb_true_iff, !Ascii.eqb_eq. tauto.
Qed.

Lemma markup_class_six (c : ascii) :
  markup_class c = existsb (Ascii.eqb c) ["*"; "#"; "["; "]"; "("; ")"]%char.
Proof.
  unfold markup_class. simpl.
  destruct (Ascii.eqb c "*"), (Ascii.eqb c "#"), (Ascii.eqb c "["),
    (Ascii.eqb c "]"), (Ascii.eqb c "("), (Ascii.eqb c ")"); reflexivity.
Qed.

Lemma remove_class_ext (f g : ascii -> bool) (s : string) :
  (forall c, f c = g c) -> JS.remove_class f s = JS.remove_class g s.
Proof.
  intros H. induction s as [|c r IH]; simpl; [reflexivity|].
  rewrite H, IH. reflexivity.
Qed.

Lemma contains_class_ext (f g : ascii -> bool) (s : string) :
  (forall c, f c = g c) -> JS.contains_class f s = JS.contains_class g s.
Proof.
  intros H. induction s as [|c r IH]; simpl; [reflexivity|].
  rewrite H, IH. reflexivity.
Qed.

Lemma contains_class_mono (f g : ascii -> bool) (s : string) :
  (forall c, f c = true -> g c = true) ->
  JS.contains_class f s = true -> JS.contains_class g s = true.
Proof.
  intros H. induction s as [|c r IH]; simpl; [discriminate|].
  rewrite !orb_true_iff. intros [Hc | Hr]; [left; apply H, Hc | right; apply IH, Hr].
Qed.

(** A unit of a list occurs in a string only if the class of the list
    does. *)
Lemma occurs_in_class (l : list ascii) (c : ascii) (s : string) :
  In c l ->
  JS.contains_class (Ascii.eqb c) s = true ->
  JS.contains_class (fun x => existsb (Ascii.eqb x) l) s = true.
Proof.
  intros Hin. apply contains_class_mono. intros x Hx.
  apply Ascii.eqb_eq in Hx. subst x.
  apply existsb_exists. exists c. split; [exact Hin | apply Ascii.eqb_refl].
Qed.

(** C10.  Before speech synthesis the narration input is sanitized.  The
    text [generateSpeech] sends to the backend, as the only part of its
    request, is the result text with every [*], [#], [[], []], [(] and
    [)] deleted and every other character kept, cut to its first 1000
    characters.  None of the six characters occurs in it and it has at
    most 1000 characters; so it differs from the result text whenever
    that one contains one of the six or is longer than 1000 characters,
    and it is the result text otherwise.  The adapter depends on the
    result text through the sanitized text alone, a refusal of the
    sanitized request is the adapter's failure, and it makes the
    narrate operation end with [Audio generation failed]. *)
Theorem generateSpeech_sanitizes (t : string) :
  let six := ["*"; "#"; "["; "]"; "("; ")"]%char in
  let sanitized := JS.take 1000 (JS.remove_class (fun c => existsb (Ascii.eqb c) six) t) in
  cleanText t = sanitized /\
  gc_parts (generateSpeech_request t) = [TextPart sanitized] /\
  (forall c, In c six -> JS.contains_class (Ascii.eqb c) sanitized = false) /\
  String.length sanitized <= 1000 /\
  (forall c, In c six -> JS.contains_class (Ascii.eqb c) t = true -> sanitized <> t) /\
  (1000 < String.length t -> sanitized <> t) /\
  (JS.contains_class (fun c => existsb (Ascii.eqb c) six) t = false ->
   String.length t <= 1000 -> sanitized = t) /\
  (forall (env : Platform) (t' : string),
      JS.take 1000 (JS.remove_class (fun c => existsb (Ascii.eqb c) six) t') = sanitized ->
      generateSpeech env t' = generateSpeech env t) /\
  (forall (env : Platform) (e : string),
      generateContent env (generateSpeech_request t) = inl e ->
      generateSpeech env t = inl e /\
      forall st : App,
        resultContent st = Some t -> t <> "" -> resultType st = text ->
        isPlayingAudio st = false ->
        isPlayingAudio (handleSpeak env st) = false /\
        errorMessage (handleSpeak env st) = Some "Audio generation failed").
Proof.
  cbv zeta.
  set (six := fun c : ascii => existsb (Ascii.eqb c) ["*"; "#"; "["; "]"; "("; ")"]%char).
  assert (Hclean : forall u, cleanText u = JS.take 1000 (JS.remove_class six u)).
  { intros u. unfold cleanText. rewrite substring_0.
    rewrite (remove_class_ext markup_class six u markup_class_six). reflexivity. }
  assert (Hnone : JS.contains_class six (JS.take 1000 (JS.remove_class six t)) = false).
  { apply contains_class_take, contains_class_remove. }
  assert (Hlen : String.length (JS.take 1000 (JS.remove_class six t)) <= 1000).
  { apply take_length. }
  split; [apply Hclean|].
  split; [unfold generateSpeech_request; simpl; rewrite Hclean; reflexivity|].
  split.
  { intros c Hin.
    destruct (JS.contains_class (Ascii.eqb c) (JS.take 1000 (JS.remove_class six t))) eqn:Hc;
      [|reflexivity].
    apply (occurs_in_class _ c _ Hin) in Hc. fold six in Hc. congruence. }
  split; [exact Hlen|].
  split.
  { intros c Hin Hocc Heq.
    apply (occurs_in_class _ c _ Hin) in Hocc. fold six in Hocc.
    rewrite Heq in Hnone. congruence. }
  split.
  { intros Hlong Heq. rewrite Heq in Hlen. lia. }
  split.
  { intros Hfree Hshort. rewrite (remove_class_none _ _ Hfree). apply take_all, Hshort. }
  split.
  { intros env t' Heq. unfold generateSpeech, generateSpeech_request.
    rewrite (Hclean t'), (Hclean t), Heq. reflexivity. }
  intros env e He. split.
  - unfold generateSpeech. rewrite He. reflexivity.
  - intros st Hr Hne Ht Hp. apply truthy_true_iff in Hne.
    unfold handleSpeak. rewrite Hr, Hne, Ht, Hp. simpl.
    unfold generateSpeech. rewrite He. simpl. split; reflexivity.
Qed.

(** On [markdown_text], in which [#] occurs, the narration input is not
    the result text; and offline the narration of [showing_text] ends
    with the failure message. *)
Lemma generateSpeech_sanitizes_witness :
  JS.contains_class (Ascii.eqb "#") markdown_text = true /\
  cleanText markdown_text <> markdown_text /\
  errorMessage (handleSpeak offline showing_text) = Some "Audio generation failed".
Proof.
  assert (H : JS.contains_class (Ascii.eqb "#") markdown_text = true) by reflexivity.
  split; [exact H | split].
  - destruct (generateSpeech_sanitizes markdown_text) as (Hc & _ & _ & _ & Hne & _).
    rewrite Hc. apply (Hne "#"%char); [right; left; reflexivity | exact H].
  - destruct (generateSpeech_sanitizes ("# Dish" ++ LF ++ "A **stew**."))
      as (_ & _ & _ & _ & _ & _ & _ & _ & Hfail).
    destruct (Hfail offline "network" eq_refl) as (_ & Hspeak).
    apply (Hspeak showing_text); [reflexivity | discriminate | reflexivity | reflexivity].
Defined.

Lemma cleanText_markdown :
  cleanText markdown_text = " Title" ++ LF ++ "bold linkurl".
Proof. vm_compute. reflexivity. Qed.

(** ** The Animate request *)

(** C4.  The request of an Animate submission carries the requested
    aspect ratio mapped to the two the capability supports: 9:16 is
    kept and each of 1:1, 2:3, 3:2, 3:4, 4:3, 16:9 and 21:9 becomes
    16:9.  Its prompt is the directive text, or the default directive
    when that text is empty.  This is the request handed to the backend:
    when the backend refuses it, the submission fails with the backend's
    error. *)
Theorem generateVideo_request_mapping
    (imageBase64 : option string) (imageMime prompt : string) (ratio : AspectRatio) :
  let req := generateVideo_request imageBase64 imageMime prompt ratio in
  gv_aspectRatio req
  = match ratio with
    | R9_16 => R9_16
    | R1_1 | R2_3 | R3_2 | R3_4 | R4_3 | R16_9 | R21_9 => R16_9
    end /\
  gv_prompt req
  = match prompt with
    | EmptyString => "Animate this image cinematically"
    | String _ _ => prompt
    end /\
  gv_imageBytes req = imageBase64 /\
  gv_mimeType req = imageMime /\
  (forall (env : Platform) (fuel : nat) (st : App) (bg : FileData),
      mode st = ANIMATE -> bgImage st = Some bg ->
      base64 bg = imageBase64 -> mimeType bg = imageMime ->
      description st = prompt -> aspectRatio st = ratio ->
      forall e, generateVideos env req = inl e ->
                dispatch env fuel st = Some (inl e)).
Proof.
  repeat split.
  - destruct ratio; reflexivity.
  - destruct prompt; reflexivity.
  - intros env fuel st bg Hm Hb H64 Hmime Hd Hr e He.
    unfold dispatch, generateVideo. rewrite Hm, Hb, H64, Hmime, Hd, Hr.
    cbv zeta in He. rewrite He. reflexivity.
Qed.

(** A request for 3:4 without directive text on a platform that is
    offline: the request is the 16:9 one with the default directive, and
    the submission ends in the backend's error. *)
Lemma generateVideo_request_mapping_witness :
  gv_aspectRatio (generateVideo_request (Some "iVBORw0KGgo=") "image/png" "" R3_4) = R16_9 /\
  gv_prompt (generateVideo_request (Some "iVBORw0KGgo=") "image/png" "" R3_4)
  = "Animate this image cinematically" /\
  dispatch offline 0 (animate_ready "" R3_4) = Some (inl "network").
Proof.
  destruct (generateVideo_request_mapping (Some "iVBORw0KGgo=") "image/png" "" R3_4)
    as (Hr & Hp & _ & _ & Hd).
  split; [exact Hr | split; [exact Hp|]].
  apply (Hd offline 0 (animate_ready "" R3_4) (sample_upload "photo.png"));
    reflexivity.
Defined.

Lemma videoRatio_examples :
  videoRatio R3_4 = R16_9 /\ videoRatio R9_16 = R9_16.
Proof. split; reflexivity. Qed.

(** ** The Analyze request *)

(** C7, as stated, fails: with an empty directive the prompt of the
    Analyze request is not the text ["describe in detail"]. *)
Lemma analyzeImage_default_prompt_differs :
  gc_parts (analyzeImage_request (Some "iVBORw0KGgo=") "image/png" "")
  = [TextPart "Analyze this image in extreme detail. Structure your response with headers.";
     InlineDataPart "image/png" (Some "iVBORw0KGgo=")] /\
  hd (TextPart "") (gc_parts (analyzeImage_request (Some "iVBORw0KGgo=") "image/png" ""))
  <> TextPart "describe in detail".
Proof.
  split; [reflexivity | discriminate].
Qed.

(** C7, amended.  The prompt of the Analyze request is the directive
    text as given when it is not empty, and the default prompt
    [Analyze this image in extreme detail. Structure your response with
    headers.] when it is empty; the image follows it.  When the backend
    answers, the submission yields a result of type text. *)
Theorem analyzeImage_prompt
    (imageBase64 : option string) (imageMime prompt : string) :
  let req := analyzeImage_request imageBase64 imageMime prompt in
  gc_parts req
  = [TextPart
       match prompt with
       | EmptyString =>
           "Analyze this image in extreme detail. Structure your response with headers."
       | String _ _ => prompt
       end;
     InlineDataPart imageMime imageBase64] /\
  (forall (env : Platform) (fuel : nat) (st : App) (bg : FileData)
          (response : GenerateContentResponse),
      mode st = ANALYZE -> bgImage st = Some bg ->
      base64 bg = imageBase64 -> mimeType bg = imageMime ->
      description st = prompt ->
      generateContent env req = inr response ->
      exists content, dispatch env fuel st = Some (inr (content, text))).
Proof.
  split.
  - destruct prompt; reflexivity.
  - intros env fuel st bg response Hm Hb H64 Hmime Hd Hr.
    exists (JS.or_else_opt (response_text response) "No analysis generated.").
    unfold dispatch, analyzeImage. rewrite Hm, Hb, H64, Hmime, Hd.
    cbv zeta in Hr. rewrite Hr. reflexivity.
Qed.

Lemma analyzeImage_prompt_witness :
  exists content,
    dispatch (answering (text_response (Some "A cat."))) 0 (analyze_ready "")
    = Some (inr (content, text)).
Proof.
  destruct (analyzeImage_prompt (Some "iVBORw0KGgo=") "image/png" "") as (_ & H).
  apply (H (answering (text_response (Some "A cat."))) 0 (analyze_ready "")
           (sample_upload "photo.png") (text_response (Some "A cat.")));
    reflexivity.
Defined.

(** ** Adapters and empty payloads *)

Lemma first_inline_image_none (ps : list ResponsePart) :
  forallb (fun p => negb (JS.present (rp_inlineData p))) ps = true ->
  first_inline_image ps = throw "No image generated".
Proof.
  induction ps as [|p ps IH]; simpl; intros H.
  - reflexivity.
  - apply andb_true_iff in H. destruct H as [Hp Hps].
    destruct (rp_inlineData p); simpl in Hp; [discriminate|].
    apply IH. exact Hps.
Qed.

Lemma poll_done (env : Platform) (fuel n : nat) (operation : Operation) :
  done operation = true -> poll env fuel n operation = Some (ret operation).
Proof.
  intros H. destruct fuel; simpl; rewrite H; reflexivity.
Qed.

(** The loop along a run of the operation: [ops i] is the operation
    after [i] probes, unfinished before the [k]-th. *)
Lemma poll_along_run (env : Platform) (ops : nat -> Operation) (k : nat) :
  (forall i, i < k ->
             done (ops i) = false /\ getVideosOperation env i (ops i) = inr (ops (S i))) ->
  forall fuel n, n <= k ->
    poll env fuel n (ops n)
    = if Nat.leb (k - n) fuel then poll env (fuel - (k - n)) k (ops k) else None.
Proof.
  intros Hrun. induction fuel as [|fuel IH]; intros n Hn.
  - destruct (Nat.eq_dec n k) as [->|Hne].
    + rewrite Nat.sub_diag. reflexivity.
    + destruct (Hrun n ltac:(lia)) as [Hd _].
      replace (Nat.leb (k - n) 0) with false by (symmetry; apply Nat.leb_gt; lia).
      simpl. rewrite Hd. reflexivity.
  - destruct (Nat.eq_dec n k) as [->|Hne].
    + rewrite Nat.sub_diag. reflexivity.
    + destruct (Hrun n ltac:(lia)) as [Hd Hp].
      cbn [poll]. rewrite Hd, Hp. rewrite IH by lia.
      replace (k - n) with (S (k - S n)) by lia.
      cbn [Nat.leb Nat.sub]. reflexivity.
Qed.

Lemma or_else_opt_no_text (r : GenerateContentResponse) (fallback : string) :
  no_text r = true -> JS.or_else_opt (response_text r) fallback = fallback.
Proof.
  unfold no_text. destruct (response_text r) as [[|c s]|]; simpl;
    intros H; try reflexivity; discriminate.
Qed.

(** C3, as stated, fails: when the backend answers with the empty text,
    each of the three text adapters returns a fixed placeholder text
    instead of failing. *)
Lemma text_adapters_return_placeholders :
  let env := answering (text_response (Some "")) in
  analyzeImage env (Some "iVBORw0KGgo=") "image/png" "What is this?"
  = inr "No analysis generated." /\
  analyzeFood env (Some "iVBORw0KGgo=") "image/png" (Some "")
  = inr "Could not analyze food." /\
  deepReasoning env "Why is the sky blue?" = inr "No reasoning generated.".
Proof.
  repeat split.
Qed.

(** C3, amended.  The adapters that return media fail when the backend's
    answer has no usable payload: the three image adapters with
    [No image generated] when no part of the first candidate has inline
    data; the Animate adapter with [No video generated] when the
    operation, reported finished at once or after any number of probes,
    has no video locator or an empty one; and the speech adapter with
    [No audio generated] when the first part of the first candidate has
    no inline audio data or empty data.  The three text adapters do not
    fail on an answer without text: Analyze returns
    [No analysis generated.], Culinary returns [Could not analyze food.]
    and Reason, when the answer has no citation data either, returns
    [No reasoning generated.]. *)
Theorem adapters_without_payload (env : Platform) :
  (forall r : GenerateContentResponse,
      no_media r = true ->
      (forall bg bgMime rf rfMime d,
          generateContent env (generateRelationshipPhoto_request bg bgMime rf rfMime d) = inr r ->
          generateRelationshipPhoto env bg bgMime rf rfMime d = inl "No image generated") /\
      (forall p size ratio,
          generateContent env (generateImage_request p size ratio) = inr r ->
          generateImage env p size ratio = inl "No image generated") /\
      (forall img mime p,
          generateContent env (editImage_request img mime p) = inr r ->
          editImage env img mime p = inl "No image generated")) /\
  (forall img mime p ratio (ops : nat -> Operation) (k : nat),
      generateVideos env (generateVideo_request img mime p ratio) = inr (ops 0) ->
      (forall i, i < k ->
                 done (ops i) = false /\
                 getVideosOperation env i (ops i) = inr (ops (S i))) ->
      done (ops k) = true ->
      JS.truthy_opt (video_uri (ops k)) = false ->
      forall fuel,
        generateVideo env fuel img mime p ratio
        = if Nat.leb k fuel then Some (inl "No video generated") else None) /\
  (forall t r,
      generateContent env (generateSpeech_request t) = inr r ->
      JS.truthy_opt (first_part_audio r) = false ->
      generateSpeech env t = inl "No audio generated") /\
  (forall r : GenerateContentResponse,
      no_text r = true ->
      (forall img mime p,
          generateContent env (analyzeImage_request img mime p) = inr r ->
          analyzeImage env img mime p = inr "No analysis generated.") /\
      (forall img mime p,
          generateContent env (analyzeFood_request img mime p) = inr r ->
          analyzeFood env img mime p = inr "Could not analyze food.") /\
      (forall p,
          generateContent env (deepReasoning_request p) = inr r ->
          first_candidate_chunks r = None ->
          deepReasoning env p = inr "No reasoning generated.")).
Proof.
  split; [|split; [|split]].
  - intros r Hr. unfold no_media in Hr.
    repeat split; intros;
      unfold generateRelationshipPhoto, generateImage, editImage;
      match goal with H : generateContent _ _ = _ |- _ => rewrite H end;
      simpl; apply first_inline_image_none; exact Hr.
  - intros img mime p ratio ops k Hg Hrun Hd Hu fuel.
    unfold generateVideo. rewrite Hg.
    rewrite (poll_along_run env ops k Hrun fuel 0) by lia.
    rewrite Nat.sub_0_r.
    destruct (Nat.leb k fuel); [|reflexivity].
    rewrite (poll_done env _ k (ops k) Hd).
    unfold ret, fetch_video.
    destruct (video_uri (ops k)) as [uri|]; [|reflexivity].
    simpl in Hu. rewrite Hu. reflexivity.
  - intros t r Hg Ha. unfold generateSpeech. rewrite Hg. simpl.
    destruct (first_part_audio r) as [b|]; [|reflexivity].
    simpl in Ha. rewrite Ha. reflexivity.
  - intros r Hr. repeat split; intros.
    + unfold analyzeImage.
      match goal with H : generateContent _ _ = _ |- _ => rewrite H end.
      simpl. rewrite (or_else_opt_no_text r _ Hr). reflexivity.
    + unfold analyzeFood.
      match goal with H : generateContent _ _ = _ |- _ => rewrite H end.
      simpl. rewrite (or_else_opt_no_text r _ Hr). reflexivity.
    + unfold deepReasoning.
      match goal with H : generateContent _ _ = _ |- _ => rewrite H end.
      simpl.
      match goal with H : first_candidate_chunks _ = None |- _ => rewrite H end.
      rewrite (or_else_opt_no_text r _ Hr). reflexivity.
Qed.

(** An answer with neither candidates nor text: Generate fails, Analyze
    returns its placeholder; a video operation finished at the second
    probe without locator: nothing after one probe, the failure from the
    second on. *)
Lemma adapters_without_payload_witness :
  let env := answering (text_response None) in
  generateImage env "a red kite" Size1K R1_1 = inl "No image generated" /\
  generateVideo (finishing_without_locator 2) 1 (Some "iVBORw0KGgo=") "image/png" "" R1_1
  = None /\
  generateVideo (finishing_without_locator 2) 2 (Some "iVBORw0KGgo=") "image/png" "" R1_1
  = Some (inl "No video generated") /\
  generateSpeech env "A cat." = inl "No audio generated" /\
  analyzeImage env (Some "iVBORw0KGgo=") "image/png" "" = inr "No analysis generated.".
Proof.
  destruct (adapters_without_payload (answering (text_response None)))
    as (Himage & _ & Hspeech & Htext).
  destruct (adapters_without_payload (finishing_without_locator 2))
    as (_ & Hvideo & _).
  destruct (Himage (text_response None) eq_refl) as (_ & Hgen & _).
  destruct (Htext (text_response None) eq_refl) as (Hanalyze & _ & _).
  assert (Hv : forall fuel,
             generateVideo (finishing_without_locator 2) fuel
               (Some "iVBORw0KGgo=") "image/png" "" R1_1
             = if Nat.leb 2 fuel then Some (inl "No video generated") else None).
  { apply (Hvideo _ _ _ _
             (fun i => {| op_name := "operations/5"; done := Nat.eqb i 2;
                          video_uri := None |}) 2).
    - reflexivity.
    - intros i Hi. destruct i as [|[|i]]; try lia; split; reflexivity.
    - reflexivity.
    - reflexivity. }
  split; [|split; [|split; [|split]]].
  - apply Hgen. reflexivity.
  - apply (Hv 1).
  - apply (Hv 2).
  - apply (Hspeech _ (text_response None)); reflexivity.
  - apply Hanalyze. reflexivity.
Defined.

(** ** Audio decoding *)

(** Induction on a buffer two bytes at a time. *)
Lemma list_pair_ind {A : Type} (P : list A -> Prop) :
  P [] -> (forall a, P [a]) -> (forall a b l, P l -> P (a :: b :: l)) ->
  forall l, P l.
Proof.
  intros H0 H1 H2 l.
  assert (H : P l /\ forall a, P (a :: l)).
  { induction l as [|b l [IH1 IH2]].
    - split; [exact H0 | exact H1].
    - split; [apply IH2 | intros a; apply H2; exact IH1]. }
  exact (proj1 H).
Qed.

Lemma half_SS (n : nat) : S (S n) / 2 = S (n / 2).
Proof.
  change (S (S n)) with (1 * 2 + n) at 1.
  rewrite Nat.div_add_l by discriminate. reflexivity.
Qed.

Lemma int16_elements_length (buffer : list byte) :
  List.length (int16_elements buffer) = List.length buffer / 2.
Proof.
  induction buffer as [| a | a b l IH] using list_pair_ind.
  - reflexivity.
  - reflexivity.
  - cbn [int16_elements List.length]. rewrite IH, half_SS. reflexivity.
Qed.

(** The [i]-th element is made of the bytes [2i] (low) and [2i+1] (high). *)
Lemma int16_elements_nth (buffer : list byte) (i : nat) :
  i < List.length (int16_elements buffer) ->
  nth i (int16_elements buffer) 0%Z
  = int16_of_bytes (nth (2 * i) buffer x00) (nth (2 * i + 1) buffer x00).
Proof.
  revert i.
  induction buffer as [| a | a b l IH] using list_pair_ind; intros i Hi.
  - simpl in Hi. lia.
  - simpl in Hi. lia.
  - cbn [int16_elements List.length] in Hi.
    destruct i as [|i].
    + reflexivity.
    + cbn [int16_elements].
      replace (2 * S i) with (S (S (2 * i))) by lia.
      replace (S (S (2 * i)) + 1) with (S (S (2 * i + 1))) by lia.
      cbn [nth]. apply IH. lia.
Qed.

Lemma int16_of_bytes_range (lo hi : byte) :
  (-32768 <= int16_of_bytes lo hi < 32768)%Z.
Proof.
  unfold int16_of_bytes.
  pose proof (Byte.to_N_bounded lo) as Hlo.
  pose proof (Byte.to_N_bounded hi) as Hhi.
  destruct (Z.ltb_spec (Z.of_N (Byte.to_N lo) + 256 * Z.of_N (Byte.to_N hi)) 32768); lia.
Qed.

Lemma int16_elements_range (buffer : list byte) (i : nat) :
  i < List.length (int16_elements buffer) ->
  (-32768 <= nth i (int16_elements buffer) 0 < 32768)%Z.
Proof.
  intros Hi. rewrite int16_elements_nth by exact Hi. apply int16_of_bytes_range.
Qed.

Lemma store_length {A : Type} (i : nat) (v : A) (a : list A) :
  List.length (store i v a) = List.length a.
Proof.
  revert i. induction a as [|h t IH]; intros i.
  - destruct i; reflexivity.
  - destruct i; simpl; [reflexivity | rewrite IH; reflexivity].
Qed.

Lemma firstn_store {A : Type} (i : nat) (v : A) (a : list A) :
  i < List.length a -> firstn (S i) (store i v a) = (firstn i a ++ [v])%list.
Proof.
  revert i. induction a as [|h t IH]; intros i Hi.
  - simpl in Hi. lia.
  - destruct i as [|i].
    + reflexivity.
    + cbn [store]. rewrite !firstn_cons. rewrite IH by (simpl in Hi; lia).
      reflexivity.
Qed.

Lemma skipn_nth {A : Type} (d : A) (i : nat) (l : list A) :
  i < List.length l -> skipn i l = nth i l d :: skipn (S i) l.
Proof.
  revert i. induction l as [|h t IH]; intros i Hi.
  - simpl in Hi. lia.
  - destruct i as [|i].
    + reflexivity.
    + cbn [skipn nth]. rewrite IH by (simpl in Hi; lia). reflexivity.
Qed.

(** The loop, started at index [i] on a buffer of the right length,
    leaves the first [i] elements and writes the others. *)
Lemma decode_loop_spec (steps : nat) :
  forall (i : nat) (dataInt16 : list Z) (float32Data : list Q),
    List.length float32Data = List.length dataInt16 ->
    i + steps = List.length dataInt16 ->
    decode_loop steps i dataInt16 float32Data
    = (firstn i float32Data ++ map normalize (skipn i dataInt16))%list.
Proof.
  induction steps as [|steps IH]; intros i dataInt16 float32Data Hlen Hi.
  - simpl. rewrite Nat.add_0_r in Hi. subst i.
    rewrite <- Hlen at 1. rewrite firstn_all, skipn_all, app_nil_r. reflexivity.
  - cbn [decode_loop].
    rewrite IH by (rewrite ?store_length; lia).
    rewrite firstn_store by lia.
    rewrite (skipn_nth 0%Z i dataInt16) by lia.
    cbn [map]. rewrite <- app_assoc. reflexivity.
Qed.

Lemma decodePCM_map (dataInt16 : list Z) :
  decodePCM dataInt16 = map normalize dataInt16.
Proof.
  unfold decodePCM. rewrite decode_loop_spec.
  - reflexivity.
  - apply repeat_length.
  - reflexivity.
Qed.

(** The quotient of a 16-bit sample by 32768 is a binary32 value: the
    store into the [Float32Array] rounds nothing. *)
Lemma decode_sample_float32 (sample : Z) :
  (-32768 <= sample < 32768)%Z -> float32_value (normalize sample).
Proof.
  intros H. exists sample, (-15)%Z. repeat split; try lia.
  change (Qpower (2 # 1) (-15)) with (1 # 32768)%Q.
  unfold normalize, Qeq. simpl. lia.
Qed.

(** C9.  A buffer of 16-bit samples (an even number of bytes) is read as
    little-endian signed integers, one per two bytes, and the decoded
    buffer has one element per sample, the [i]-th being [sample_i / 32768]
    exactly, a value that binary32 represents.  The four bytes
    [00 80 00 00] are the samples -32768 and 0 and decode to -1 and 0. *)
Theorem decodePCM_correct :
  (forall arrayBuffer : list byte,
      Nat.even (List.length arrayBuffer) = true ->
      exists dataInt16,
        Int16Array arrayBuffer = inr dataInt16 /\
        List.length dataInt16 = List.length arrayBuffer / 2 /\
        List.length (decodePCM dataInt16) = List.length dataInt16 /\
        forall i, i < List.length dataInt16 ->
          nth i dataInt16 0%Z
          = int16_of_bytes (nth (2 * i) arrayBuffer x00) (nth (2 * i + 1) arrayBuffer x00) /\
          nth i (decodePCM dataInt16) (0 # 1)%Q = (nth i dataInt16 0%Z # 32768)%Q /\
          float32_value (nth i (decodePCM dataInt16) (0 # 1)%Q)) /\
  Int16Array [x00; x80; x00; x00] = inr [(-32768)%Z; 0%Z] /\
  Forall2 Qeq (decodePCM [(-32768)%Z; 0%Z]) [(-1 # 1)%Q; (0 # 1)%Q].
Proof.
  split; [|split].
  - intros arrayBuffer Heven. exists (int16_elements arrayBuffer).
    unfold Int16Array. rewrite Heven.
    split; [reflexivity|]. split; [apply int16_elements_length|].
    rewrite decodePCM_map. split; [apply length_map|].
    intros i Hi. split; [apply int16_elements_nth; exact Hi|].
    rewrite (nth_indep _ (0 # 1)%Q (normalize 0)) by (rewrite length_map; exact Hi).
    rewrite map_nth.
    split; [reflexivity|].
    apply decode_sample_float32, int16_elements_range. exact Hi.
  - reflexivity.
  - rewrite decodePCM_map. repeat constructor.
Qed.

(** The decoding of the four bytes [00 80 00 00]. *)
Lemma decodePCM_correct_witness :
  exists dataInt16,
    Int16Array [x00; x80; x00; x00] = inr dataInt16 /\
    List.length dataInt16 = 2 /\
    List.length (decodePCM dataInt16) = List.length dataInt16.
Proof.
  destruct (proj1 decodePCM_correct [x00; x80; x00; x00] eq_refl)
    as (dataInt16 & Harr & Hlen & Hdec & _).
  exists dataInt16. split; [exact Harr | split; [exact Hlen | exact Hdec]].
Defined.

(** A buffer with an odd number of bytes is refused. *)
Lemma Int16Array_odd :
  Int16Array [x00; x80; x00] = inl "byte length of Int16Array should be a multiple of 2".
Proof. reflexivity. Qed.

(** * Further properties of the code *)

(** ** Strings, continued *)

Lemma str_app_assoc (a b c : string) : (a ++ b) ++ c = a ++ b ++ c.
Proof.
  induction a as [|x a IH]; simpl; [reflexivity | rewrite IH; reflexivity].
Qed.

Lemma str_app_empty_r (a : string) : a ++ "" = a.
Proof.
  induction a as [|x a IH]; simpl; [reflexivity | rewrite IH; reflexivity].
Qed.

Lemma comma_free_cons (c : ascii) (s : string) :
  comma_free (String c s) = true <-> Ascii.eqb c "," = false /\ comma_free s = true.
Proof.
  unfold comma_free. simpl. rewrite negb_orb, andb_true_iff, !negb_true_iff.
  reflexivity.
Qed.

Lemma comma_free_app (a b : string) :
  comma_free a = true -> comma_free b = true -> comma_free (a ++ b) = true.
Proof.
  induction a as [|x a IH]; simpl; intros Ha Hb.
  - exact Hb.
  - apply comma_free_cons in Ha. destruct Ha as [Hx Ha].
    apply comma_free_cons. split; [exact Hx | apply IH; assumption].
Qed.

(** A string without comma is the only piece of its split. *)
Lemma split_comma_free (s : string) :
  comma_free s = true -> JS.split "," s = [s].
Proof.
  induction s as [|c s IH]; intros H.
  - reflexivity.
  - apply comma_free_cons in H. destruct H as [Hc Hs].
    simpl. rewrite Hc, (IH Hs). reflexivity.
Qed.

(** The split at the first comma. *)
Lemma split_at_first_comma (p d : string) :
  comma_free p = true -> JS.split "," (p ++ String "," d) = p :: JS.split "," d.
Proof.
  induction p as [|c p IH]; intros H.
  - reflexivity.
  - apply comma_free_cons in H. destruct H as [Hc Hp].
    simpl. rewrite Hc, (IH Hp). reflexivity.
Qed.

(** The payload of a data URL is what [split(',')[1]] extracts. *)
Lemma payload_of_data_url (header payload : string) :
  comma_free header = true -> comma_free payload = true ->
  nth_error (JS.split "," (header ++ String "," payload)) 1 = Some payload.
Proof.
  intros Hh Hp. rewrite (split_at_first_comma _ _ Hh), (split_comma_free _ Hp).
  reflexivity.
Qed.

Lemma base64_of_png_locator (d : string) :
  comma_free d = true ->
  base64_of_locator ("data:image/png;base64," ++ d) = Some d.
Proof.
  intros H. unfold base64_of_locator.
  change ("data:image/png;base64," ++ d) with ("data:image/png;base64" ++ String "," d).
  apply payload_of_data_url; [reflexivity | exact H].
Qed.

(** ** The image adapters return the first media part *)

Lemma first_inline_image_first (pre post : list ResponsePart) (p : ResponsePart)
    (d : option string) :
  forallb (fun q => negb (JS.present (rp_inlineData q))) pre = true ->
  rp_inlineData p = Some d ->
  first_inline_image (pre ++ p :: post)%list
  = ret ("data:image/png;base64," ++ JS.interpolate d).
Proof.
  intros Hpre Hp. induction pre as [|q pre IH]; simpl.
  - rewrite Hp. reflexivity.
  - simpl in Hpre. apply andb_true_iff in Hpre. destruct Hpre as [Hq Hpre].
    destruct (rp_inlineData q); simpl in Hq; [discriminate|].
    apply IH. exact Hpre.
Qed.

(** X1.  When the parts of the first candidate are some parts without
    media, then a part with media, then anything, each of the three
    image adapters returns the PNG data URL of that first media part:
    text parts before it are skipped and media after it is ignored. *)
Theorem image_adapters_first_media
    (env : Platform) (r : GenerateContentResponse)
    (pre post : list ResponsePart) (p : ResponsePart) (d : option string) :
  first_candidate_parts r = (pre ++ p :: post)%list ->
  forallb (fun q => negb (JS.present (rp_inlineData q))) pre = true ->
  rp_inlineData p = Some d ->
  let url := "data:image/png;base64," ++ JS.interpolate d in
  (forall bg bgMime rf rfMime t,
      generateContent env (generateRelationshipPhoto_request bg bgMime rf rfMime t) = inr r ->
      generateRelationshipPhoto env bg bgMime rf rfMime t = inr url) /\
  (forall t size ratio,
      generateContent env (generateImage_request t size ratio) = inr r ->
      generateImage env t size ratio = inr url) /\
  (forall img mime t,
      generateContent env (editImage_request img mime t) = inr r ->
      editImage env img mime t = inr url).
Proof.
  intros Hparts Hpre Hp. cbv zeta.
  repeat split; intros;
    unfold generateRelationshipPhoto, generateImage, editImage;
    match goal with H : generateContent _ _ = _ |- _ => rewrite H end;
    simpl; rewrite Hparts; apply first_inline_image_first; assumption.
Qed.

Lemma image_adapters_first_media_witness :
  let r := parts_response
             [{| rp_text := Some "Here it is."; rp_inlineData := None |};
              {| rp_text := None; rp_inlineData := Some (Some "AAAA") |};
              {| rp_text := None; rp_inlineData := Some (Some "BBBB") |}] in
  generateImage (answering r) "a red kite" Size1K R1_1
  = inr "data:image/png;base64,AAAA".
Proof.
  cbv zeta.
  match goal with |- generateImage (answering ?r) _ _ _ = _ =>
    destruct (image_adapters_first_media (answering r) r
                [{| rp_text := Some "Here it is."; rp_inlineData := None |}]
                [{| rp_text := None; rp_inlineData := Some (Some "BBBB") |}]
                {| rp_text := None; rp_inlineData := Some (Some "AAAA") |}
                (Some "AAAA") eq_refl eq_refl eq_refl) as (_ & Hgen & _)
  end.
  apply Hgen. reflexivity.
Defined.

(** ** The trailer of sources *)

Lemma append_source_line (acc : string) (chunk : GroundingChunk) :
  append_source acc chunk = acc ++ citation_line chunk.
Proof.
  unfold append_source, citation_line.
  destruct (web chunk) as [[title uri]|].
  - destruct (JS.truthy_opt uri); [reflexivity | rewrite str_app_empty_r; reflexivity].
  - rewrite str_app_empty_r. reflexivity.
Qed.

Lemma concat_cons (x : string) (l : list string) :
  String.concat "" (x :: l) = x ++ String.concat "" l.
Proof.
  destruct l; simpl; [rewrite str_app_empty_r|]; reflexivity.
Qed.

Lemma fold_append_source (chunks : list GroundingChunk) (acc : string) :
  fold_left append_source chunks acc
  = acc ++ String.concat "" (map citation_line chunks).
Proof.
  revert acc. induction chunks as [|c chunks IH]; intros acc.
  - simpl. rewrite str_app_empty_r. reflexivity.
  - cbn [fold_left map]. rewrite IH, append_source_line, str_app_assoc, concat_cons.
    reflexivity.
Qed.

Lemma contains_class_app (cls : ascii -> bool) (a b : string) :
  JS.contains_class cls (a ++ b)
  = (JS.contains_class cls a || JS.contains_class cls b)%bool.
Proof.
  induction a as [|x a IH]; simpl; [reflexivity|].
  rewrite IH, orb_assoc. reflexivity.
Qed.

(** X2.  When the answer carries citation data, [deepReasoning] returns
    the answer's text (nothing for a missing text), a blank line, the
    header [### Sources] and one line per citation that has a link, in
    order; citations without link add nothing.  The placeholder is not
    returned then, even for an answer without text. *)
Theorem deepReasoning_sources
    (env : Platform) (prompt : string) (r : GenerateContentResponse)
    (chunks : list GroundingChunk) :
  generateContent env (deepReasoning_request prompt) = inr r ->
  first_candidate_chunks r = Some chunks ->
  deepReasoning env prompt
  = inr (JS.or_else_opt (response_text r) "" ++ LF ++ LF ++ "### Sources" ++ LF
         ++ String.concat "" (map citation_line chunks)) /\
  deepReasoning env prompt <> inr "No reasoning generated.".
Proof.
  intros Hg Hc.
  assert (H : deepReasoning env prompt
              = inr (JS.or_else_opt (response_text r) "" ++ LF ++ LF ++ "### Sources" ++ LF
                     ++ String.concat "" (map citation_line chunks))).
  { unfold deepReasoning. rewrite Hg. simpl. rewrite Hc.
    rewrite fold_append_source, !str_app_assoc.
    destruct (JS.or_else_opt (response_text r) ""); reflexivity. }
  split; [exact H|].
  rewrite H. intros Heq. inversion Heq as [Hs].
  assert (Hlf : JS.contains_class (fun c => Ascii.eqb c (ascii_of_nat 10))
                  "No reasoning generated." = true).
  { rewrite <- Hs. rewrite contains_class_app.
    apply orb_true_iff. right. reflexivity. }
  vm_compute in Hlf. discriminate.
Qed.

Lemma deepReasoning_sources_witness :
  let chunks :=
    [{| web := Some (Some "Rayleigh scattering", Some "https://example.org/sky") |};
     {| web := None |};
     {| web := Some (None, Some "https://example.org/blue") |}] in
  deepReasoning (answering (cited_response None chunks)) "Why is the sky blue?"
  = inr (LF ++ LF ++ "### Sources" ++ LF
         ++ "- [Rayleigh scattering](https://example.org/sky)" ++ LF
         ++ "- [undefined](https://example.org/blue)" ++ LF).
Proof.
  cbv zeta.
  match goal with |- deepReasoning (answering (cited_response None ?chunks)) ?q = _ =>
    destruct (deepReasoning_sources (answering (cited_response None chunks)) q
                (cited_response None chunks) chunks eq_refl eq_refl) as (H & _)
  end.
  rewrite H. reflexivity.
Defined.

(** ** Chaining, continued *)

(** The state after a successful chain of a PNG data URL. *)
Lemma chain_image_success
    (env : Platform) (targetMode : AppMode) (st : App) (payload : string) (blob : Blob) :
  comma_free payload = true ->
  resultContent st = Some ("data:image/png;base64," ++ payload) ->
  resultType st = image ->
  fetch_blob env ("data:image/png;base64," ++ payload) = inr blob ->
  let st' := chainResultToInput env targetMode st in
  bgImage st'
  = Some {| file := {| file_parts := [blob]; file_name := "chained_image.png";
                       file_type := "image/png" |};
            previewUrl := "data:image/png;base64," ++ payload;
            base64 := Some payload;
            mimeType := "image/png" |} /\
  refImage st' = None /\ description st' = "" /\
  mode st' = targetMode /\ appState st' = IDLE /\ resultContent st' = None.
Proof.
  intros Hp Hr Ht Hf. unfold chainResultToInput. rewrite Hr, Ht, Hf.
  unfold chained_image. rewrite (base64_of_png_locator payload Hp).
  repeat split.
Qed.

(** X3.  Chaining an image result whose locator is a PNG data URL with a
    comma-free payload, as the image adapters produce them, when the
    refetch succeeds: the primary image becomes a PNG named
    [chained_image.png] made of the fetched bytes, previewed by the
    locator, and its base64 field is exactly the payload of the
    locator; the reference image and the directive text are cleared;
    the session is idle in the target mode without result. *)
Theorem chain_image_reingests_payload
    (env : Platform) (targetMode : AppMode) (st : App) (payload : string) (blob : Blob) :
  comma_free payload = true ->
  resultContent st = Some ("data:image/png;base64," ++ payload) ->
  resultType st = image ->
  fetch_blob env ("data:image/png;base64," ++ payload) = inr blob ->
  let st' := chainResultToInput env targetMode st in
  bgImage st'
  = Some {| file := {| file_parts := [blob]; file_name := "chained_image.png";
                       file_type := "image/png" |};
            previewUrl := "data:image/png;base64," ++ payload;
            base64 := Some payload;
            mimeType := "image/png" |} /\
  refImage st' = None /\ description st' = "" /\
  mode st' = targetMode /\ appState st' = IDLE /\ resultContent st' = None.
Proof.
  exact (chain_image_success env targetMode st payload blob).
Qed.

Lemma chain_image_reingests_payload_witness :
  base64_of_locator "data:image/png;base64,AAAA" = Some "AAAA" /\
  option_map base64
    (bgImage (chainResultToInput (answering (text_response None)) EDIT showing_image))
  = Some (Some "AAAA").
Proof.
  destruct (chain_image_reingests_payload (answering (text_response None)) EDIT
              showing_image "AAAA" png_blob eq_refl eq_refl eq_refl eq_refl)
    as (Hbg & _).
  split; [reflexivity|]. rewrite Hbg. reflexivity.
Defined.

Lemma includes_chain_targets (m : AppMode) :
  includes [ANIMATE; EDIT; ANALYZE] m = true ->
  m = ANIMATE \/ m = EDIT \/ m = ANALYZE.
Proof.
  destruct m; simpl; intros H; try discriminate; auto.
Qed.

(** X4.  Whenever a chain button is offered and the refetch of the image
    succeeds, the session reached by pressing it can be submitted at
    once: the launch button is offered in the target mode. *)
Theorem chain_image_then_submittable
    (env : Platform) (targetMode : AppMode) (st : App) (locator : string) (blob : Blob) :
  offered (ChainButton targetMode) st = true ->
  resultContent st = Some locator ->
  fetch_blob env locator = inr blob ->
  offered LaunchButton (chainResultToInput env targetMode st) = true.
Proof.
  intros Hoff Hr Hf. simpl in Hoff.
  rewrite !andb_true_iff in Hoff. destruct Hoff as [[[Hkey Htruthy] Htype] Htarget].
  rewrite Hr in Htruthy. simpl in Htruthy.
  assert (Hi : resultType st = image) by (destruct (resultType st); simpl in Htype; congruence).
  unfold chainResultToInput. rewrite Hr, Htruthy, Hi, Hf. simpl.
  rewrite Hkey. simpl.
  destruct (includes_chain_targets _ Htarget) as [-> | [-> | ->]]; reflexivity.
Qed.

Lemma chain_image_then_submittable_witness :
  offered LaunchButton
    (chainResultToInput (answering (text_response None)) ANIMATE showing_image) = true.
Proof.
  apply (chain_image_then_submittable (answering (text_response None)) ANIMATE
           showing_image "data:image/png;base64,AAAA" png_blob);
    reflexivity.
Defined.

(** X5.  Chaining a text result copies the text into the directive field
    as it is and leaves both images untouched; the session is idle in
    the target mode without result, and for the targets Reason and
    Generate it can be submitted at once. *)
Theorem chain_text_seeds_directive
    (env : Platform) (targetMode : AppMode) (st : App) (content : string) :
  resultContent st = Some content ->
  content <> "" ->
  resultType st = text ->
  let st' := chainResultToInput env targetMode st in
  description st' = content /\
  bgImage st' = bgImage st /\ refImage st' = refImage st /\
  mode st' = targetMode /\ appState st' = IDLE /\ resultContent st' = None /\
  (targetMode = REASON \/ targetMode = GENERATE -> canSubmit st' = true).
Proof.
  intros Hr Hne Ht. apply truthy_true_iff in Hne.
  unfold chainResultToInput. rewrite Hr, Hne, Ht. simpl.
  repeat split.
  intros [-> | ->]; unfold canSubmit; simpl; rewrite Hne; reflexivity.
Qed.

Lemma chain_text_seeds_directive_witness :
  description (chainResultToInput offline REASON showing_text)
  = "# Dish" ++ LF ++ "A **stew**." /\
  canSubmit (chainResultToInput offline REASON showing_text) = true.
Proof.
  destruct (chain_text_seeds_directive offline REASON showing_text
              ("# Dish" ++ LF ++ "A **stew**.") eq_refl)
    as (Hd & _ & _ & _ & _ & _ & Hs).
  - discriminate.
  - reflexivity.
  - split; [exact Hd | apply Hs; left; reflexivity].
Defined.

(** ** Uploads *)

(** X6.  [handleFileChange] on a file whose data URL is
    [data:<type>;base64,<payload>], neither part with a comma: the
    upload passed on is the first chosen file, with the payload as
    base64 field, the file's own type as MIME type and the object URL
    as preview.  Without a chosen file, or when the reader delivers
    nothing or the empty text, nothing is passed on. *)
Theorem handleFileChange_payload
    (readAsDataURL : File -> option string) (objectURL : File -> string)
    (chosen : File) (others : list File) (type payload : string) :
  comma_free type = true -> comma_free payload = true ->
  readAsDataURL chosen = Some ("data:" ++ type ++ ";base64," ++ payload) ->
  handleFileChange readAsDataURL objectURL (chosen :: others)
  = Some {| file := chosen; previewUrl := objectURL chosen;
            base64 := Some payload; mimeType := file_type chosen |} /\
  handleFileChange readAsDataURL objectURL [] = None /\
  (forall f fs, readAsDataURL f = None \/ readAsDataURL f = Some "" ->
                handleFileChange readAsDataURL objectURL (f :: fs) = None).
Proof.
  intros Ht Hp Hread. split; [|split].
  - assert (Hurl : "data:" ++ type ++ ";base64," ++ payload
                   = ("data:" ++ type ++ ";base64") ++ String "," payload).
    { rewrite !str_app_assoc. reflexivity. }
    assert (Hheader : comma_free ("data:" ++ type ++ ";base64") = true).
    { apply comma_free_app; [reflexivity|].
      apply comma_free_app; [exact Ht | reflexivity]. }
    unfold handleFileChange. rewrite Hread.
    replace (JS.truthy ("data:" ++ type ++ ";base64," ++ payload)) with true
      by reflexivity.
    rewrite Hurl, (payload_of_data_url _ _ Hheader Hp). reflexivity.
  - reflexivity.
  - intros f fs [H | H]; unfold handleFileChange; rewrite H; reflexivity.
Qed.

Lemma handleFileChange_payload_witness :
  let jpeg := {| file_parts := []; file_name := "cat.jpg"; file_type := "image/jpeg" |} in
  option_map base64
    (handleFileChange (fun _ => Some "data:image/jpeg;base64,/9j/4AAQ")
       (fun f => "blob:" ++ file_name f) [jpeg])
  = Some (Some "/9j/4AAQ").
Proof.
  cbv zeta.
  match goal with |- option_map _ (handleFileChange ?rd ?ou [?f]) = _ =>
    destruct (handleFileChange_payload rd ou f [] "image/jpeg" "/9j/4AAQ"
                eq_refl eq_refl eq_refl) as (H & _)
  end.
  rewrite H. reflexivity.
Defined.

(** ** Polling the video operation *)

(** X7.  The Animate adapter asks the status probe until the operation
    is finished and no further.  If the operation is first reported
    finished at the [k]-th probe, the adapter has not returned within
    fewer than [k] probes; from [k] probes on it has, and when the
    finished operation carries a locator the adapter fetches
    [<locator>&key=<API key>] and returns the object URL of the fetched
    video. *)
Theorem generateVideo_polls_until_done
    (env : Platform) (ops : nat -> Operation) (k : nat)
    (img : option string) (mime prompt : string) (ratio : AspectRatio)
    (uri : string) (videoBlob : Blob) :
  generateVideos env (generateVideo_request img mime prompt ratio) = inr (ops 0) ->
  (forall i, i < k ->
             done (ops i) = false /\ getVideosOperation env i (ops i) = inr (ops (S i))) ->
  done (ops k) = true ->
  video_uri (ops k) = Some uri -> uri <> "" ->
  fetch_blob env (uri ++ "&key=" ++ API_KEY env) = inr videoBlob ->
  forall fuel,
    generateVideo env fuel img mime prompt ratio
    = if Nat.leb k fuel then Some (inr (createObjectURL env videoBlob)) else None.
Proof.
  intros Hstart Hrun Hdone Huri Hne Hfetch fuel.
  unfold generateVideo. rewrite Hstart.
  rewrite (poll_along_run env ops k Hrun fuel 0) by lia.
  rewrite Nat.sub_0_r.
  destruct (Nat.leb k fuel); [|reflexivity].
  rewrite (poll_done env _ k (ops k) Hdone).
  unfold ret, fetch_video. rewrite Huri.
  apply truthy_true_iff in Hne. rewrite Hne, Hfetch. reflexivity.
Qed.

Lemma generateVideo_polls_until_done_witness :
  generateVideo (finishing_at 3 (text_response None)) 2 (Some "iVBORw0KGgo=") "image/png" "" R1_1
  = None /\
  generateVideo (finishing_at 3 (text_response None)) 3 (Some "iVBORw0KGgo=") "image/png" "" R1_1
  = Some (inr "blob:video-7").
Proof.
  pose (ops := fun i : nat =>
          {| op_name := "operations/7"; done := Nat.eqb i 3;
             video_uri := Some "https://videos.example/7?alt=media" |}).
  assert (H : forall fuel,
             generateVideo (finishing_at 3 (text_response None)) fuel
               (Some "iVBORw0KGgo=") "image/png" "" R1_1
             = if Nat.leb 3 fuel then Some (inr "blob:video-7") else None).
  { apply (generateVideo_polls_until_done (finishing_at 3 (text_response None)) ops 3
             (Some "iVBORw0KGgo=") "image/png" "" R1_1
             "https://videos.example/7?alt=media" png_blob).
    - reflexivity.
    - intros i Hi. destruct i as [|[|[|i]]]; try lia; split; reflexivity.
    - reflexivity.
    - reflexivity.
    - discriminate.
    - reflexivity. }
  split; [apply (H 2) | apply (H 3)].
Defined.

Lemma poll_never_done (env : Platform) :
  (forall n o, done o = false ->
               exists o', getVideosOperation env n o = inr o' /\ done o' = false) ->
  forall fuel n operation, done operation = false -> poll env fuel n operation = None.
Proof.
  intros Hprobe. induction fuel as [|fuel IH]; intros n operation Hd.
  - simpl. rewrite Hd. reflexivity.
  - simpl. rewrite Hd.
    destruct (Hprobe n operation Hd) as (o' & Hp & Hd').
    rewrite Hp. apply IH. exact Hd'.
Qed.

(** X8.  The wait has no bound of its own.  If the backend accepts the
    Animate request with an unfinished operation and the probe keeps
    answering with unfinished operations, the submission has not
    returned after any number of probes: the session stays generating,
    with neither result nor error. *)
Theorem animate_never_times_out
    (env : Platform) (st : App) (bg : FileData) (operation : Operation) :
  mode st = ANIMATE -> bgImage st = Some bg ->
  generateVideos env
    (generateVideo_request (base64 bg) (mimeType bg) (description st) (aspectRatio st))
  = inr operation ->
  done operation = false ->
  (forall n o, done o = false ->
               exists o', getVideosOperation env n o = inr o' /\ done o' = false) ->
  forall fuel id now,
    handleAction env fuel id now st = None /\
    appState (handleAction_begin st) = GENERATING /\
    resultContent (handleAction_begin st) = None /\
    errorMessage (handleAction_begin st) = None.
Proof.
  intros Hm Hb Hstart Hd Hprobe fuel id now.
  split; [|repeat split].
  unfold handleAction, dispatch, generateVideo. rewrite Hm, Hb, Hstart.
  rewrite (poll_never_done env Hprobe fuel 0 operation Hd). reflexivity.
Qed.

Lemma animate_never_times_out_witness :
  handleAction stalled 1000 "id-1" 1 (animate_ready "" R3_4) = None.
Proof.
  apply (animate_never_times_out stalled (animate_ready "" R3_4)
           (sample_upload "photo.png")
           {| op_name := "operations/9"; done := false; video_uri := None |}).
  - reflexivity.
  - reflexivity.
  - reflexivity.
  - reflexivity.
  - intros n o Ho. exists o. split; [reflexivity | exact Ho].
Defined.

(** X9.  A failure of the status probe is not retried: if the probe
    fails at the [k]-th probe of an operation unfinished until then, the
    adapter fails with the probe's error as soon as it has made that
    probe. *)
Theorem generateVideo_probe_failure
    (env : Platform) (ops : nat -> Operation) (k : nat) (e : string)
    (img : option string) (mime prompt : string) (ratio : AspectRatio) :
  generateVideos env (generateVideo_request img mime prompt ratio) = inr (ops 0) ->
  (forall i, i < k ->
             done (ops i) = false /\ getVideosOperation env i (ops i) = inr (ops (S i))) ->
  done (ops k) = false ->
  getVideosOperation env k (ops k) = inl e ->
  forall fuel, k < fuel ->
    generateVideo env fuel img mime prompt ratio = Some (inl e).
Proof.
  intros Hstart Hrun Hd He fuel Hfuel.
  unfold generateVideo. rewrite Hstart.
  rewrite (poll_along_run env ops k Hrun fuel 0) by lia.
  rewrite Nat.sub_0_r.
  replace (Nat.leb k fuel) with true by (symmetry; apply Nat.leb_le; lia).
  destruct (fuel - k) as [|rest] eqn:Hrest; [lia|].
  cbn [poll]. rewrite Hd, He. reflexivity.
Qed.

Lemma generateVideo_probe_failure_witness :
  let env :=
    {| API_KEY := "key";
       generateContent := fun _ => throw "network";
       generateVideos := fun _ =>
         ret {| op_name := "operations/3"; done := false; video_uri := None |};
       getVideosOperation := fun _ _ => throw "quota exceeded";
       fetch_blob := fun _ => ret png_blob;
       createObjectURL := fun _ => "blob:0";
       atob := fun b => ret b |} in
  generateVideo env 1 None "image/png" "" R1_1 = Some (inl "quota exceeded").
Proof.
  cbv zeta.
  match goal with |- generateVideo ?env _ _ _ _ _ = _ =>
    apply (generateVideo_probe_failure env
             (fun _ => {| op_name := "operations/3"; done := false; video_uri := None |})
             0 "quota exceeded")
  end.
  - reflexivity.
  - intros i Hi. lia.
  - reflexivity.
  - reflexivity.
  - lia.
Defined.

(** ** Submissions *)

(** The type of result a mode produces. *)
Lemma dispatch_result_type
    (env : Platform) (fuel : nat) (st : App) (r : string) (ty : ResultType) :
  dispatch env fuel st = Some (inr (r, ty)) ->
  ty = match mode st with
       | COMPOSITE | GENERATE | EDIT => image
       | ANIMATE => video
       | ANALYZE | CULINARY | REASON => text
       end.
Proof.
  unfold dispatch. intros H.
  destruct (mode st);
    repeat match type of H with
      | context [match ?x with _ => _ end] => destruct x eqn:?; simpl in H
      | context [if ?x then _ else _] => destruct x eqn:?; simpl in H
      end;
    try discriminate;
    unfold bind in H;
    repeat match type of H with
      | context [match ?x with _ => _ end] => destruct x eqn:?; simpl in H
      end;
    try discriminate; inversion H; reflexivity.
Qed.

Lemma addToHistory_frame (id : string) (now : Z) (t : string) (st : App) :
  let st' := addToHistory id now t st in
  hasApiKey st' = hasApiKey st /\ mode st' = mode st /\
  bgImage st' = bgImage st /\ refImage st' = refImage st /\
  description st' = description st /\ aspectRatio st' = aspectRatio st /\
  imageSize st' = imageSize st /\ isVerified st' = isVerified st /\
  appState st' = appState st /\ resultContent st' = resultContent st /\
  resultType st' = resultType st /\ errorMessage st' = errorMessage st /\
  statusText st' = statusText st /\ isPlayingAudio st' = isPlayingAudio st.
Proof.
  unfold addToHistory.
  destruct (negb (JS.truthy (JS.trim t))); [repeat split|].
  destruct (history_updater id now t (promptHistory st)) as [h [written|]];
    repeat split.
Qed.

(** The two ways a submission ends, with what each leaves behind. *)
Lemma handleAction_cases
    (env : Platform) (fuel : nat) (id : string) (now : Z) (st st' : App) :
  handleAction env fuel id now st = Some st' ->
  (mode st' = mode st /\ bgImage st' = bgImage st /\ refImage st' = refImage st /\
   description st' = description st /\ isVerified st' = isVerified st /\
   aspectRatio st' = aspectRatio st /\ imageSize st' = imageSize st /\
   isPlayingAudio st' = false) /\
  ((exists r,
       dispatch env fuel st = Some (inr (r, resultType st')) /\
       appState st' = SUCCESS /\ resultContent st' = Some r /\ errorMessage st' = None /\
       resultType st'
       = match mode st with
         | COMPOSITE | GENERATE | EDIT => image
         | ANIMATE => video
         | ANALYZE | CULINARY | REASON => text
         end /\
       promptHistory st' = promptHistory (addToHistory id now (description st) st)) \/
   (exists message,
       dispatch env fuel st = Some (inl message) /\
       appState st' = ERROR /\ errorMessage st' = Some message /\
       resultContent st' = None /\ resultType st' = resultType st /\
       promptHistory st' = promptHistory st)).
Proof.
  unfold handleAction. intros H.
  destruct (dispatch env fuel st) as [[message | [r ty]]|] eqn:Hd; [| |discriminate].
  - inversion H; subst st'; clear H. split; [repeat split|].
    right. exists message. repeat split.
  - inversion H; subst st'; clear H.
    match goal with |- context [addToHistory id now ?t ?s] =>
      pose proof (addToHistory_frame id now t s) as Hf;
      pose proof (addToHistory_history id now t s) as Hh
    end.
    cbv zeta in Hf.
    destruct Hf as (_ & Hmode & Hbg & Href & Hdesc & Har & Hsz & Hver & Hst & Hrc & Hrt & Herr & _ & Hpl).
    split.
    + rewrite Hmode, Hbg, Href, Hdesc, Hver, Har, Hsz, Hpl. repeat split.
    + left. exists r. rewrite Hrt, Hst, Hrc, Herr, Hh.
      rewrite (addToHistory_history id now (description st) st).
      pose proof (dispatch_result_type env fuel st r ty Hd) as Hty.
      repeat split; assumption.
Qed.

(** X10.  A submission that returns leaves the session either in
    Success, with a result of the type of its mode, no error, and the
    directive recorded in the history by [addToHistory]; or in Error,
    with the error of the failed call as message, no result and the
    history as it was.  Either way the mode, both images, the directive
    text and the settings are those of the click, and the audio guard
    is released. *)
Theorem handleAction_outcome
    (env : Platform) (fuel : nat) (id : string) (now : Z) (st st' : App) :
  handleAction env fuel id now st = Some st' ->
  (mode st' = mode st /\ bgImage st' = bgImage st /\ refImage st' = refImage st /\
   description st' = description st /\ isVerified st' = isVerified st /\
   aspectRatio st' = aspectRatio st /\ imageSize st' = imageSize st /\
   isPlayingAudio st' = false) /\
  ((exists r,
       dispatch env fuel st = Some (inr (r, resultType st')) /\
       appState st' = SUCCESS /\ resultContent st' = Some r /\ errorMessage st' = None /\
       resultType st'
       = match mode st with
         | COMPOSITE | GENERATE | EDIT => image
         | ANIMATE => video
         | ANALYZE | CULINARY | REASON => text
         end /\
       promptHistory st' = promptHistory (addToHistory id now (description st) st)) \/
   (exists message,
       dispatch env fuel st = Some (inl message) /\
       appState st' = ERROR /\ errorMessage st' = Some message /\
       resultContent st' = None /\ resultType st' = resultType st /\
       promptHistory st' = promptHistory st)).
Proof.
  exact (handleAction_cases env fuel id now st st').
Qed.

Lemma handleAction_outcome_witness :
  exists st',
    handleAction (answering (text_response (Some "A cat."))) 0 "id-1" 1
      (analyze_ready "What is this?") = Some st' /\
    appState st' = SUCCESS /\ resultType st' = text /\
    mode st' = ANALYZE.
Proof.
  destruct (handleAction (answering (text_response (Some "A cat."))) 0 "id-1" 1
              (analyze_ready "What is this?")) as [st'|] eqn:H;
    [|vm_compute in H; discriminate].
  exists st'. split; [reflexivity|].
  destruct (handleAction_outcome _ _ _ _ _ _ H) as ((Hm & _) & [(r & Hd & Hs & _ & _ & Ht & _) | (m & Hd & _)]).
  - repeat split; [exact Hs | rewrite Ht; reflexivity | rewrite Hm; reflexivity].
  - vm_compute in Hd. discriminate.
Defined.

(** X11.  Whenever the launch button would be enabled the handler's own
    checks pass and the backend is called: on a platform where every
    call fails with [m], the submission fails with [m], not with one of
    the handler's [Missing ...] errors. *)
Theorem canSubmit_reaches_backend (m : string) (fuel : nat) (st : App) :
  canSubmit st = true -> dispatch (failing m) fuel st = Some (inl m).
Proof.
  unfold canSubmit, dispatch. intros H.
  destruct (appState st); simpl in H; try discriminate;
    destruct (mode st); simpl in H |- *;
    destruct (description st); simpl in H |- *; try discriminate;
    destruct (bgImage st); simpl in H |- *; try discriminate;
    destruct (refImage st); simpl in H |- *; try discriminate;
    reflexivity.
Qed.

Lemma canSubmit_reaches_backend_witness :
  dispatch (failing "503") 0 composite_ready = Some (inl "503").
Proof.
  apply canSubmit_reaches_backend. reflexivity.
Defined.

(** X12.  What a submission does not read.  The ownership flag takes no
    part in the dispatch: it is enforced by the button alone.  Outside
    Generate and Animate the aspect ratio and the resolution are
    ignored (Composite always asks for 1:1 at 2K).  Animate ignores the
    resolution and does not distinguish two ratios other than 9:16. *)
Theorem dispatch_ignores_settings (env : Platform) (fuel : nat) (st : App) :
  (forall b, dispatch env fuel (set_isVerified b st) = dispatch env fuel st) /\
  (forall ratio size,
      mode st <> GENERATE -> mode st <> ANIMATE ->
      dispatch env fuel (set_aspectRatio ratio (set_imageSize size st))
      = dispatch env fuel st) /\
  (forall ratio1 ratio2 size,
      mode st = ANIMATE -> ratio1 <> R9_16 -> ratio2 <> R9_16 ->
      dispatch env fuel (set_aspectRatio ratio1 (set_imageSize size st))
      = dispatch env fuel (set_aspectRatio ratio2 st)).
Proof.
  split; [|split].
  - intros b. reflexivity.
  - intros ratio size Hg Ha. unfold dispatch. simpl.
    destruct (mode st); try congruence; reflexivity.
  - intros ratio1 ratio2 size Hm H1 H2. unfold dispatch. simpl. rewrite Hm.
    destruct (bgImage st) as [bg|]; [|reflexivity].
    unfold generateVideo, generateVideo_request.
    replace (videoRatio ratio1) with R16_9 by (destruct ratio1; try reflexivity; congruence).
    replace (videoRatio ratio2) with R16_9 by (destruct ratio2; try reflexivity; congruence).
    reflexivity.
Qed.

Lemma dispatch_ignores_settings_witness :
  dispatch offline 0 (set_aspectRatio R21_9 (set_imageSize Size4K composite_ready))
  = dispatch offline 0 composite_ready /\
  dispatch offline 0 (set_aspectRatio R3_4 (set_imageSize Size4K (animate_ready "" R1_1)))
  = dispatch offline 0 (set_aspectRatio R21_9 (animate_ready "" R1_1)).
Proof.
  destruct (dispatch_ignores_settings offline 0 composite_ready) as (_ & Hc & _).
  destruct (dispatch_ignores_settings offline 0 (animate_ready "" R1_1)) as (_ & _ & Ha).
  split.
  - apply Hc; discriminate.
  - apply Ha; [reflexivity | discriminate | discriminate].
Defined.

(** ** What a success puts on display *)

Lemma first_inline_image_nonempty (ps : list ResponsePart) (r : string) :
  first_inline_image ps = inr r -> JS.truthy r = true.
Proof.
  induction ps as [|p ps IH]; simpl; intros H.
  - discriminate.
  - destruct (rp_inlineData p); [|apply IH; exact H].
    inversion H. reflexivity.
Qed.

Lemma or_else_opt_truthy (a : option string) (b : string) :
  JS.truthy b = true -> JS.truthy (JS.or_else_opt a b) = true.
Proof.
  intros Hb. destruct a as [[|c s]|]; simpl; try exact Hb. reflexivity.
Qed.

Lemma or_else_truthy (a b : string) :
  JS.truthy b = true -> JS.truthy (JS.or_else a b) = true.
Proof.
  intros Hb. destruct a; simpl; [exact Hb | reflexivity].
Qed.

Lemma dispatch_result_nonempty
    (env : Platform) (fuel : nat) (st : App) (r : string) (ty : ResultType) :
  dispatch env fuel st = Some (inr (r, ty)) -> mode st <> ANIMATE ->
  JS.truthy r = true.
Proof.
  unfold dispatch. intros H Hm.
  destruct (mode st); try congruence;
    repeat match type of H with
      | context [match bgImage st with _ => _ end] => destruct (bgImage st); simpl in H
      | context [match refImage st with _ => _ end] => destruct (refImage st); simpl in H
      | context [if ?x then _ else _] => destruct x; simpl in H
      end;
    try discriminate;
    unfold generateRelationshipPhoto, generateImage, editImage, analyzeImage,
      analyzeFood, deepReasoning, bind, ret in H;
    match type of H with
    | context [generateContent env ?q] => destruct (generateContent env q) as [e|resp]
    end; try discriminate.
  - destruct (first_inline_image (first_candidate_parts resp)) eqn:Hi; [discriminate|].
    inversion H; subst. apply (first_inline_image_nonempty _ _ Hi).
  - destruct (first_inline_image (first_candidate_parts resp)) eqn:Hi; [discriminate|].
    inversion H; subst. apply (first_inline_image_nonempty _ _ Hi).
  - destruct (first_inline_image (first_candidate_parts resp)) eqn:Hi; [discriminate|].
    inversion H; subst. apply (first_inline_image_nonempty _ _ Hi).
  - inversion H. apply or_else_opt_truthy. reflexivity.
  - inversion H. apply or_else_opt_truthy. reflexivity.
  - inversion H. apply or_else_truthy. reflexivity.
Qed.

(** X13.  After a successful submission in an image mode every chain
    button is offered, and after one in a text mode the speak button is
    offered: an image or text result is never the empty text, so it is
    always displayed with its controls. *)
Theorem success_offers_controls
    (env : Platform) (fuel : nat) (id : string) (now : Z) (st st' : App) :
  handleAction env fuel id now st = Some st' ->
  appState st' = SUCCESS ->
  hasApiKey st = true ->
  match mode st with
  | COMPOSITE | GENERATE | EDIT =>
      offered (ChainButton ANIMATE) st' = true /\
      offered (ChainButton EDIT) st' = true /\
      offered (ChainButton ANALYZE) st' = true /\
      offered SpeakButton st' = false
  | ANALYZE | CULINARY | REASON =>
      offered SpeakButton st' = true /\
      forall targetMode, offered (ChainButton targetMode) st' = false
  | ANIMATE =>
      offered SpeakButton st' = false /\
      forall targetMode, offered (ChainButton targetMode) st' = false
  end.
Proof.
  unfold handleAction. intros H Hs Hkey.
  destruct (dispatch env fuel st) as [[message | [r ty]]|] eqn:Hd; [| |discriminate].
  - inversion H; subst st'. simpl in Hs. discriminate.
  - inversion H; subst st'; clear H Hs.
    pose proof (dispatch_result_type env fuel st r ty Hd) as Hty.
    match goal with |- context [addToHistory id now ?t ?s] =>
      pose proof (addToHistory_frame id now t s) as Hf
    end.
    cbv zeta in Hf.
    destruct Hf as (Hk & _ & _ & _ & _ & _ & _ & _ & _ & Hrc & Hrt & _ & _ & Hpl).
    unfold offered. rewrite Hk, Hrc, Hrt, Hpl. simpl. rewrite Hkey. simpl.
    destruct (mode st) eqn:Hm; subst ty; simpl;
      try (rewrite (dispatch_result_nonempty env fuel st r _ Hd)
             by (rewrite Hm; discriminate); simpl);
      repeat split; try reflexivity; intros;
      rewrite ?andb_false_r; reflexivity.
Qed.

Lemma success_offers_controls_witness :
  exists st',
    handleAction (answering (text_response (Some "A cat."))) 0 "id-1" 1
      (analyze_ready "What is this?") = Some st' /\
    offered SpeakButton st' = true.
Proof.
  destruct (handleAction (answering (text_response (Some "A cat."))) 0 "id-1" 1
              (analyze_ready "What is this?")) as [st'|] eqn:H;
    [|vm_compute in H; discriminate].
  exists st'. split; [reflexivity|].
  assert (Hs : appState st' = SUCCESS).
  { vm_compute in H. inversion H. reflexivity. }
  pose proof (success_offers_controls _ _ _ _ _ _ H Hs eq_refl) as Hc.
  simpl in Hc. exact (proj1 Hc).
Defined.

(** ** Narration *)

Lemma int16_elements_nil (buffer : list byte) :
  Nat.even (List.length buffer) = true ->
  (int16_elements buffer = [] <-> buffer = []).
Proof.
  destruct buffer as [|a [|b l]]; simpl; intros H; split; intros E;
    try reflexivity; try discriminate.
Qed.

(** X14.  The single-flight guard of [handleSpeak].  Without a displayed
    text result, or while a narration is playing, a speak request does
    nothing at all.  In no case does it touch the mode, the inputs, the
    session state, the result or the history. *)
Theorem handleSpeak_guard (env : Platform) (st : App) :
  (JS.truthy_opt (resultContent st) = false \/ resultType st <> text \/
   isPlayingAudio st = true ->
   handleSpeak env st = st) /\
  (let st' := handleSpeak env st in
   mode st' = mode st /\ bgImage st' = bgImage st /\ refImage st' = refImage st /\
   description st' = description st /\ appState st' = appState st /\
   resultContent st' = resultContent st /\ resultType st' = resultType st /\
   promptHistory st' = promptHistory st).
Proof.
  split.
  - intros H. unfold handleSpeak.
    destruct (resultContent st) as [t|]; [|reflexivity].
    simpl in H. destruct (JS.truthy t); simpl.
    + destruct (resultType st); simpl; try reflexivity.
      destruct H as [H | [H | H]]; [discriminate | congruence | rewrite H; reflexivity].
    + reflexivity.
  - unfold handleSpeak.
    destruct (resultContent st) as [t|] eqn:Hr; [|rewrite Hr; repeat split].
    destruct (_ || _)%bool; [rewrite Hr; repeat split|].
    destruct (isPlayingAudio st); [rewrite Hr; repeat split|].
    destruct (generateSpeech env t) as [e|arrayBuffer]; simpl.
    + rewrite Hr. repeat split.
    + destruct (Int16Array arrayBuffer) as [e|dataInt16]; simpl.
      * rewrite Hr. repeat split.
      * destruct (createBuffer (decodePCM dataInt16)); simpl; rewrite Hr; repeat split.
Qed.

Lemma handleSpeak_guard_witness :
  handleSpeak offline (set_isPlayingAudio true showing_text)
  = set_isPlayingAudio true showing_text /\
  handleSpeak offline showing_image = showing_image.
Proof.
  split.
  - apply (proj1 (handleSpeak_guard offline (set_isPlayingAudio true showing_text))).
    right. right. reflexivity.
  - apply (proj1 (handleSpeak_guard offline showing_image)).
    right. left. discriminate.
Defined.

(** X15.  A speak request that passes the guard starts a playback
    exactly when the synthesis returns a non-empty buffer of an even
    number of bytes: the guard is then held and the output receives one
    channel at 24 kHz with one normalized sample per two bytes.  In
    every other case the guard is released and the message
    [Audio generation failed] is stored. *)
Theorem handleSpeak_outcome (env : Platform) (st : App) (t : string) :
  resultContent st = Some t -> t <> "" -> resultType st = text ->
  isPlayingAudio st = false ->
  let st' := handleSpeak env st in
  (forall arrayBuffer,
      generateSpeech env t = inr arrayBuffer ->
      Nat.even (List.length arrayBuffer) = true -> arrayBuffer <> [] ->
      isPlayingAudio st' = true /\
      errorMessage st' = errorMessage st /\
      playing st'
      = Some {| numberOfChannels := 1; sampleRate := 24000;
                channelData := map normalize (int16_elements arrayBuffer) |}) /\
  ((forall e, generateSpeech env t = inl e ->
      isPlayingAudio st' = false /\ errorMessage st' = Some "Audio generation failed" /\
      playing st' = playing st) /\
   (forall arrayBuffer,
      generateSpeech env t = inr arrayBuffer ->
      Nat.even (List.length arrayBuffer) = false \/ arrayBuffer = [] ->
      isPlayingAudio st' = false /\ errorMessage st' = Some "Audio generation failed" /\
      playing st' = playing st)).
Proof.
  intros Hr Hne Ht Hp. apply truthy_true_iff in Hne.
  unfold handleSpeak. rewrite Hr, Hne, Ht, Hp. simpl.
  split; [|split].
  - intros arrayBuffer Hg Heven Hnn. rewrite Hg.
    unfold Int16Array. rewrite Heven. simpl.
    rewrite decodePCM_map.
    destruct (int16_elements arrayBuffer) as [|s ss] eqn:Hel.
    + apply (int16_elements_nil _ Heven) in Hel. contradiction.
    + simpl. repeat split.
  - intros e Hg. rewrite Hg. repeat split.
  - intros arrayBuffer Hg [Hodd | Hnil]; rewrite Hg.
    + unfold Int16Array. rewrite Hodd. simpl. repeat split.
    + subst arrayBuffer. simpl. repeat split.
Qed.

Lemma handleSpeak_outcome_witness :
  let env :=
    answering (parts_response
                 [{| rp_text := None; rp_inlineData := Some (Some (String "000" (String "128" ""))) |}]) in
  isPlayingAudio (handleSpeak env showing_text) = true /\
  option_map channelData (playing (handleSpeak env showing_text))
  = Some [normalize (-32768)].
Proof.
  cbv zeta.
  match goal with |- isPlayingAudio (handleSpeak ?env _) = _ /\ _ =>
    destruct (handleSpeak_outcome env showing_text ("# Dish" ++ LF ++ "A **stew**.")
                eq_refl ltac:(discriminate) eq_refl eq_refl) as (Hok & _);
    destruct (Hok [x00; x80] eq_refl eq_refl ltac:(discriminate)) as (Hplay & _ & Hbuf)
  end.
  split; [exact Hplay|]. rewrite Hbuf. reflexivity.
Defined.

(** ** Decoded samples are normalized *)

Lemma normalize_range (sample : Z) :
  (-32768 <= sample < 32768)%Z ->
  (-1 # 1 <= normalize sample)%Q /\ (normalize sample < 1 # 1)%Q.
Proof.
  intros H. unfold normalize, Qle, Qlt. simpl. lia.
Qed.

Lemma int16_elements_all_in_range (buffer : list byte) :
  Forall (fun s => (-32768 <= s < 32768)%Z) (int16_elements buffer).
Proof.
  induction buffer as [| a | a b l IH] using list_pair_ind.
  - constructor.
  - constructor.
  - cbn [int16_elements]. constructor; [apply int16_of_bytes_range | exact IH].
Qed.

(** X16.  Whatever bytes the synthesis returns, every decoded sample
    lies in the interval from -1 (included) to 1 (excluded), and -1 is
    reached by the bytes [00 80]. *)
Theorem decoded_samples_normalized (buffer : list byte) :
  Forall (fun q => (-1 # 1 <= q)%Q /\ (q < 1 # 1)%Q) (decodePCM (int16_elements buffer)) /\
  decodePCM (int16_elements [x00; x80]) = [normalize (-32768)] /\
  (normalize (-32768) == -1 # 1)%Q.
Proof.
  split; [|split].
  - rewrite decodePCM_map. apply Forall_map.
    eapply Forall_impl; [|apply int16_elements_all_in_range].
    intros s Hs. apply normalize_range. exact Hs.
  - rewrite decodePCM_map. reflexivity.
  - reflexivity.
Qed.

(** ** The history, displayed and stored *)

Lemma trimEnd_cons (c : ascii) (r : string) :
  JS.trimEnd (String c r)
  = match JS.trimEnd r with
    | EmptyString => if JS.is_white_space c then "" else String c ""
    | String c' r' => String c (String c' r')
    end.
Proof. reflexivity. Qed.

Lemma trimEnd_idempotent (s : string) : JS.trimEnd (JS.trimEnd s) = JS.trimEnd s.
Proof.
  induction s as [|c r IH]; [reflexivity|].
  rewrite trimEnd_cons.
  destruct (JS.trimEnd r) as [|c' r'] eqn:Hr.
  - destruct (JS.is_white_space c) eqn:Hc; [reflexivity|].
    rewrite trimEnd_cons. simpl. rewrite Hc. reflexivity.
  - rewrite trimEnd_cons, IH. reflexivity.
Qed.

Lemma trimStart_head (s : string) :
  match JS.trimStart s with
  | EmptyString => True
  | String c _ => JS.is_white_space c = false
  end.
Proof.
  induction s as [|c r IH]; simpl; [exact I|].
  destruct (JS.is_white_space c) eqn:Hc; [exact IH | exact Hc].
Qed.

Lemma trimEnd_keeps_head (c : ascii) (r : string) :
  JS.is_white_space c = false ->
  exists r', JS.trimEnd (String c r) = String c r'.
Proof.
  intros Hc. rewrite trimEnd_cons.
  destruct (JS.trimEnd r) as [|c' r'].
  - rewrite Hc. exists "". reflexivity.
  - exists (String c' r'). reflexivity.
Qed.

Lemma trim_idempotent (t : string) : JS.trim (JS.trim t) = JS.trim t.
Proof.
  unfold JS.trim.
  pose proof (trimStart_head t) as Hh.
  destruct (JS.trimStart t) as [|c r] eqn:Ht.
  - reflexivity.
  - destruct (trimEnd_keeps_head c r Hh) as (r' & Hr').
    rewrite Hr'. cbn [JS.trimStart]. rewrite Hh. rewrite <- Hr'.
    apply trimEnd_idempotent.
Qed.

Lemma mounted_mirrored (saved : option (list PromptHistoryItem)) :
  history_mirrored (mounted saved) /\
  promptHistory (mounted saved) = match saved with Some h => h | None => [] end.
Proof.
  destruct saved; split; reflexivity.
Qed.

Lemma apply_history_op_mirrored (st : App) (op : HistoryOp) :
  history_mirrored st -> history_mirrored (apply_history_op st op).
Proof.
  unfold history_mirrored, stored_history. intros H.
  destruct op as [id now t | id |]; simpl.
  - unfold addToHistory.
    destruct (negb (JS.truthy (JS.trim t))); [exact H|].
    unfold history_updater.
    match goal with |- context [if ?b then _ else _] => destruct b end; simpl.
    + exact H.
    + reflexivity.
  - reflexivity.
  - reflexivity.
Qed.

Lemma apply_history_op_length (st : App) (op : HistoryOp) :
  List.length (promptHistory st) <= 20 ->
  List.length (promptHistory (apply_history_op st op)) <= 20.
Proof.
  intros H. destruct op as [id now t | id |]; simpl.
  - apply addToHistory_length. exact H.
  - pose proof (filter_length_le (fun i => negb (String.eqb (item_id i) id))
                  (promptHistory st)). lia.
  - lia.
Qed.

(** X17.  The stored history is a faithful mirror of the displayed one.
    From the moment the component is mounted, after any sequence of
    recorded submits, deletions and purges, the list kept in
    [localStorage] (none standing for the empty list) is the list on
    display, so a reload shows the same history; and if the list found
    at mount has at most 20 entries, the list never has more. *)
Theorem history_mirror_and_cap
    (saved : option (list PromptHistoryItem)) (ops : list HistoryOp) :
  let st := apply_history_ops ops (mounted saved) in
  promptHistory st = stored_history st /\
  promptHistory (mounted (localStorage_history st)) = promptHistory st /\
  (List.length (match saved with Some h => h | None => [] end) <= 20 ->
   List.length (promptHistory st) <= 20).
Proof.
  cbv zeta.
  assert (Hinv : forall ops st,
             history_mirrored st ->
             history_mirrored (apply_history_ops ops st)).
  { clear ops. intros ops. unfold apply_history_ops.
    induction ops as [|op ops IH]; intros st H; simpl; [exact H|].
    apply IH, apply_history_op_mirrored, H. }
  assert (Hlen : forall ops st,
             List.length (promptHistory st) <= 20 ->
             List.length (promptHistory (apply_history_ops ops st)) <= 20).
  { clear ops Hinv. intros ops. unfold apply_history_ops.
    induction ops as [|op ops IH]; intros st H; simpl; [exact H|].
    apply IH, apply_history_op_length, H. }
  pose proof (Hinv ops (mounted saved) (proj1 (mounted_mirrored saved))) as Hm.
  split; [exact Hm | split].
  - rewrite (proj2 (mounted_mirrored _)). symmetry. exact Hm.
  - intros Hs. apply Hlen. rewrite (proj2 (mounted_mirrored saved)). exact Hs.
Qed.

Lemma history_mirror_and_cap_witness :
  let st := apply_history_ops
              [Recorded "id-1" 1 "a"; Recorded "id-2" 2 "b"; Deleted "id-1";
               Recorded "id-3" 3 "b"]
              (mounted None) in
  map item_text (promptHistory st) = ["b"] /\
  List.length (promptHistory st) <= 20.
Proof.
  cbv zeta.
  match goal with |- map item_text (promptHistory ?st) = _ /\ _ =>
    destruct (history_mirror_and_cap None
                [Recorded "id-1" 1 "a"; Recorded "id-2" 2 "b"; Deleted "id-1";
                 Recorded "id-3" 3 "b"]) as (_ & _ & Hcap)
  end.
  split; [reflexivity | apply Hcap; simpl; lia].
Defined.

Lemma Forall_firstn_list {A : Type} (P : A -> Prop) (n : nat) (l : list A) :
  Forall P l -> Forall P (firstn n l).
Proof.
  intros H. revert n. induction H as [|x l Hx Hl IH]; intros n.
  - destruct n; constructor.
  - destruct n; simpl; constructor; [exact Hx | apply IH].
Qed.

Lemma Forall_filter_list {A : Type} (P : A -> Prop) (f : A -> bool) (l : list A) :
  Forall P l -> Forall P (filter f l).
Proof.
  intros H. apply Forall_forall. intros x Hx.
  rewrite Forall_forall in H. apply H. apply filter_In in Hx. exact (proj1 Hx).
Qed.

Lemma apply_history_op_well_trimmed (st : App) (op : HistoryOp) :
  Forall well_trimmed (promptHistory st) ->
  Forall well_trimmed (promptHistory (apply_history_op st op)).
Proof.
  intros H. destruct op as [id now t | id |]; simpl.
  - rewrite addToHistory_history.
    destruct (negb (JS.truthy (JS.trim t))) eqn:Hb; [exact H|].
    unfold history_updater.
    match goal with |- context [if ?b then _ else _] => destruct b end; cbn [fst].
    + exact H.
    + unfold JS.slice0. apply Forall_firstn_list. constructor; [|exact H].
      split; simpl.
      * apply trim_idempotent.
      * apply negb_false_iff, truthy_true_iff in Hb. exact Hb.
  - apply Forall_filter_list. exact H.
  - constructor.
Qed.

(** X18.  The history holds no blank and no padded text.  If the entries
    found at mount are trimmed and not blank (in particular if there
    are none), then after any sequence of recorded submits, deletions
    and purges every entry's text is not empty and has no white space at
    either end, whatever directive texts were submitted. *)
Theorem history_entries_well_trimmed
    (saved : option (list PromptHistoryItem)) (ops : list HistoryOp) :
  Forall well_trimmed (match saved with Some h => h | None => [] end) ->
  Forall well_trimmed (promptHistory (apply_history_ops ops (mounted saved))).
Proof.
  intros Hs.
  assert (Hinv : forall ops st,
             Forall well_trimmed (promptHistory st) ->
             Forall well_trimmed (promptHistory (apply_history_ops ops st))).
  { clear. intros ops. unfold apply_history_ops.
    induction ops as [|op ops IH]; intros st H; simpl; [exact H|].
    apply IH, apply_history_op_well_trimmed, H. }
  apply Hinv. rewrite (proj2 (mounted_mirrored saved)). exact Hs.
Qed.

Lemma history_entries_well_trimmed_witness :
  Forall well_trimmed
    (promptHistory
       (apply_history_ops [Recorded "id-1" 1 "  a cat "; Recorded "id-2" 2 "   "]
          (mounted None))).
Proof.
  apply (history_entries_well_trimmed None). constructor.
Defined.

(** X19.  Picking the most recent entry of the history and submitting it
    as it is records nothing: the displayed and the stored list are
    left as they were. *)
Theorem resubmit_latest_entry
    (id : string) (now : Z) (st : App)
    (latest : PromptHistoryItem) (older : list PromptHistoryItem) :
  promptHistory st = latest :: older ->
  let st' := addToHistory id now (description (onSelect (item_text latest) st)) st in
  promptHistory st' = promptHistory st /\
  localStorage_history st' = localStorage_history st.
Proof.
  intros Hp. cbv zeta. change (description (onSelect (item_text latest) st))
    with (item_text latest).
  unfold addToHistory.
  destruct (negb (JS.truthy (JS.trim (item_text latest)))); [split; reflexivity|].
  rewrite Hp, (history_updater_same id now _ latest older eq_refl).
  split; reflexivity.
Qed.

Lemma resubmit_latest_entry_witness :
  let st := addToHistory "id-1" 1 " a cat " (mounted None) in
  map item_text (promptHistory st) = ["a cat"] /\
  promptHistory (addToHistory "id-2" 2 "a cat" st) = promptHistory st.
Proof.
  cbv zeta. split; [reflexivity|].
  match goal with |- promptHistory (addToHistory _ _ _ ?st) = _ =>
    apply (resubmit_latest_entry "id-2" 2 st
             {| item_id := "id-1"; item_text := "a cat"; item_timestamp := 1 |} [])
  end.
  reflexivity.
Defined.

(** ** From a generated image back to the backend *)

Lemma first_inline_image_shape (ps : list ResponsePart) (r : string) :
  first_inline_image ps = inr r ->
  exists payload, r = "data:image/png;base64," ++ payload.
Proof.
  induction ps as [|p ps IH]; simpl; intros H.
  - discriminate.
  - destruct (rp_inlineData p) as [d|]; [|apply IH; exact H].
    inversion H. exists (JS.interpolate d). reflexivity.
Qed.

Lemma dispatch_image_shape
    (env : Platform) (fuel : nat) (st : App) (r : string) :
  dispatch env fuel st = Some (inr (r, image)) ->
  exists payload, r = "data:image/png;base64," ++ payload.
Proof.
  unfold dispatch. intros H.
  destruct (mode st);
    repeat match type of H with
      | context [match bgImage st with _ => _ end] => destruct (bgImage st); simpl in H
      | context [match refImage st with _ => _ end] => destruct (refImage st); simpl in H
      | context [match generateVideo ?a ?b ?c ?d ?e ?f with _ => _ end] =>
          destruct (generateVideo a b c d e f) as [[?|?]|]; simpl in H
      | context [if ?x then _ else _] => destruct x; simpl in H
      end;
    try discriminate;
    unfold generateRelationshipPhoto, generateImage, editImage, analyzeImage,
      analyzeFood, deepReasoning, bind, ret in H;
    match type of H with
    | context [generateContent env ?q] => destruct (generateContent env q) as [e|resp]
    end; try discriminate;
    destruct (first_inline_image (first_candidate_parts resp)) eqn:Hi;
    try discriminate; inversion H; subst;
    apply (first_inline_image_shape _ _ Hi).
Qed.

(** X20.  The picture the backend returns is the picture sent back when
    the user chains it into Edit.  After a successful submission in an
    image mode the result is a PNG data URL; if its payload has no
    comma and the refetch succeeds, chaining into Edit and typing a
    directive makes the next submission call the Edit adapter with that
    payload, the type [image/png] and the directive. *)
Theorem generated_image_round_trip
    (env : Platform) (fuel : nat) (id : string) (now : Z) (st st1 : App) :
  handleAction env fuel id now st = Some st1 ->
  appState st1 = SUCCESS ->
  mode st = COMPOSITE \/ mode st = GENERATE \/ mode st = EDIT ->
  exists payload,
    resultContent st1 = Some ("data:image/png;base64," ++ payload) /\
    resultType st1 = image /\
    (comma_free payload = true ->
     forall blob directive,
       fetch_blob env ("data:image/png;base64," ++ payload) = inr blob ->
       dispatch env fuel (set_description directive (chainResultToInput env EDIT st1))
       = Some (r <- editImage env (Some payload) "image/png" directive ;;
               ret (r, image))).
Proof.
  intros H Hs Hm.
  destruct (handleAction_cases env fuel id now st st1 H)
    as (_ & [(r & Hd & _ & Hr & _ & Ht & _) | (m & _ & He & _)]);
    [|congruence].
  assert (Hi : resultType st1 = image).
  { rewrite Ht. destruct Hm as [-> | [-> | ->]]; reflexivity. }
  rewrite Hi in Hd.
  destruct (dispatch_image_shape env fuel st r Hd) as (payload & ->).
  exists payload. split; [exact Hr | split; [exact Hi|]].
  intros Hc blob directive Hf.
  destruct (chain_image_success env EDIT st1 payload blob Hc Hr Hi Hf)
    as (Hbg & _ & _ & Hmode & _).
  unfold dispatch. simpl.
  cbv zeta in Hbg, Hmode. rewrite Hmode, Hbg. reflexivity.
Qed.

Lemma generated_image_round_trip_witness :
  let env := answering (parts_response
               [{| rp_text := None; rp_inlineData := Some (Some "AAAA") |}]) in
  exists st1,
    handleAction env 0 "id-1" 1 (set_description "a red kite" (set_mode GENERATE started))
    = Some st1 /\
    resultContent st1 = Some "data:image/png;base64,AAAA".
Proof.
  cbv zeta.
  match goal with |- exists st1, handleAction ?env ?f ?i ?n ?st = _ /\ _ =>
    destruct (handleAction env f i n st) as [st1|] eqn:H;
      [|vm_compute in H; discriminate];
    assert (Hs : appState st1 = SUCCESS)
      by (vm_compute in H; inversion H; reflexivity);
    destruct (generated_image_round_trip env f i n st st1 H Hs
                (or_intror (or_introl eq_refl))) as (payload & Hr & _)
  end.
  exists st1. split; [reflexivity|].
  rewrite Hr. vm_compute in H. inversion H; subst st1. simpl in Hr.
  inversion Hr. reflexivity.
Defined.
